(** * The Streamlit page assembler: [load_react_app] of [streamlit_app.py]

    The script reads the build output of a single-page application
    ([dist/index.html] and the files of [dist/assets]), replaces the
    stylesheet links and script tags that reference an asset by the
    asset's text, puts two keys into a script block in front of
    [</head>] and hands the document to the host's HTML component.

    The embedding follows the script line by line.  The library calls it
    makes are modelled next to it: [str.endswith], [str.replace],
    [re.escape], [re.compile] (for the fragment of the pattern language
    the two patterns of the script are written in), [Pattern.sub] with a
    backtracking matcher, [os.environ.get] and [st.secrets.get].

    Text is a list of code points, as a Python [str] is.  Letter case
    under [re.IGNORECASE] is the one the engine uses for [str] patterns:
    the simple lower-case mapping of the Unicode database together with
    the engine's table of characters that fold together.  Both are
    written out below as CPython 3.11 has them (Unicode 14.0). *)

From Stdlib Require Import List Ascii String Bool Arith NArith ZArith Lia.
From stdpp Require Import base option gmap strings.
Import ListNotations.

Local Open Scope list_scope.
Local Open Scope bool_scope.

(** ** Text *)

Abbreviation text := (list N).

(** The code point of an ASCII character, and the text of an ASCII
    literal. *)
Definition ch (a : ascii) : N := N_of_ascii a.
Arguments ch a%_char : simpl never.

Definition txt (s : string) : text := map N_of_ascii (list_ascii_of_string s).

Definition dquote : N := 34.
Definition newline : N := 10.
Definition backslash : N := 92.

(** *** Letter case *)

(** The characters from 128 on that the simple lower-case mapping
    changes, with their images ([_sre.unicode_tolower]). *)
Definition lower_table : list (N * N) :=
  [(192, 224); (193, 225); (194, 226); (195, 227); (196, 228); (197, 229);
   (198, 230); (199, 231); (200, 232); (201, 233); (202, 234); (203, 235);
   (204, 236); (205, 237); (206, 238); (207, 239); (208, 240); (209, 241);
   (210, 242); (211, 243); (212, 244); (213, 245); (214, 246); (216, 248);
   (217, 249); (218, 250); (219, 251); (220, 252); (221, 253); (222, 254);
   (256, 257); (258, 259); (260, 261); (262, 263); (264, 265); (266, 267);
   (268, 269); (270, 271); (272, 273); (274, 275); (276, 277); (278, 279);
   (280, 281); (282, 283); (284, 285); (286, 287); (288, 289); (290, 291);
   (292, 293); (294, 295); (296, 297); (298, 299); (300, 301); (302, 303);
   (304, 105); (306, 307); (308, 309); (310, 311); (313, 314); (315, 316);
   (317, 318); (319, 320); (321, 322); (323, 324); (325, 326); (327, 328);
   (330, 331); (332, 333); (334, 335); (336, 337); (338, 339); (340, 341);
   (342, 343); (344, 345); (346, 347); (348, 349); (350, 351); (352, 353);
   (354, 355); (356, 357); (358, 359); (360, 361); (362, 363); (364, 365);
   (366, 367); (368, 369); (370, 371); (372, 373); (374, 375); (376, 255);
   (377, 378); (379, 380); (381, 382); (385, 595); (386, 387); (388, 389);
   (390, 596); (391, 392); (393, 598); (394, 599); (395, 396); (398, 477);
   (399, 601); (400, 603); (401, 402); (403, 608); (404, 611); (406, 617);
   (407, 616); (408, 409); (412, 623); (413, 626); (415, 629); (416, 417);
   (418, 419); (420, 421); (422, 640); (423, 424); (425, 643); (428, 429);
   (430, 648); (431, 432); (433, 650); (434, 651); (435, 436); (437, 438);
   (439, 658); (440, 441); (444, 445); (452, 454); (453, 454); (455, 457);
   (456, 457); (458, 460); (459, 460); (461, 462); (463, 464); (465, 466);
   (467, 468); (469, 470); (471, 472); (473, 474); (475, 476); (478, 479);
   (480, 481); (482, 483); (484, 485); (486, 487); (488, 489); (490, 491);
   (492, 493); (494, 495); (497, 499); (498, 499); (500, 501); (502, 405);
   (503, 447); (504, 505); (506, 507); (508, 509); (510, 511); (512, 513);
   (514, 515); (516, 517); (518, 519); (520, 521); (522, 523); (524, 525);
   (526, 527); (528, 529); (530, 531); (532, 533); (534, 535); (536, 537);
   (538, 539); (540, 541); (542, 543); (544, 414); (546, 547); (548, 549);
   (550, 551); (552, 553); (554, 555); (556, 557); (558, 559); (560, 561);
   (562, 563); (570, 11365); (571, 572); (573, 410); (574, 11366);
   (577, 578); (579, 384); (580, 649); (581, 652); (582, 583); (584, 585);
   (586, 587); (588, 589); (590, 591); (880, 881); (882, 883); (886, 887);
   (895, 1011); (902, 940); (904, 941); (905, 942); (906, 943); (908, 972);
   (910, 973); (911, 974); (913, 945); (914, 946); (915, 947); (916, 948);
   (917, 949); (918, 950); (919, 951); (920, 952); (921, 953); (922, 954);
   (923, 955); (924, 956); (925, 957); (926, 958); (927, 959); (928, 960);
   (929, 961); (931, 963); (932, 964); (933, 965); (934, 966); (935, 967);
   (936, 968); (937, 969); (938, 970); (939, 971); (975, 983); (984, 985);
   (986, 987); (988, 989); (990, 991); (992, 993); (994, 995); (996, 997);
   (998, 999); (1000, 1001); (1002, 1003); (1004, 1005); (1006, 1007);
   (1012, 952); (1015, 1016); (1017, 1010); (1018, 1019); (1021, 891);
   (1022, 892); (1023, 893); (1024, 1104); (1025, 1105); (1026, 1106);
   (1027, 1107); (1028, 1108); (1029, 1109); (1030, 1110); (1031, 1111);
   (1032, 1112); (1033, 1113); (1034, 1114); (1035, 1115); (1036, 1116);
   (1037, 1117); (1038, 1118); (1039, 1119); (1040, 1072); (1041, 1073);
   (1042, 1074); (1043, 1075); (1044, 1076); (1045, 1077); (1046, 1078);
   (1047, 1079); (1048, 1080); (1049, 1081); (1050, 1082); (1051, 1083);
   (1052, 1084); (1053, 1085); (1054, 1086); (1055, 1087); (1056, 1088);
   (1057, 1089); (1058, 1090); (1059, 1091); (1060, 1092); (1061, 1093);
   (1062, 1094); (1063, 1095); (1064, 1096); (1065, 1097); (1066, 1098);
   (1067, 1099); (1068, 1100); (1069, 1101); (1070, 1102); (1071, 1103);
   (1120, 1121); (1122, 1123); (1124, 1125); (1126, 1127); (1128, 1129);
   (1130, 1131); (1132, 1133); (1134, 1135); (1136, 1137); (1138, 1139);
   (1140, 1141); (1142, 1143); (1144, 1145); (1146, 1147); (1148, 1149);
   (1150, 1151); (1152, 1153); (1162, 1163); (1164, 1165); (1166, 1167);
   (1168, 1169); (1170, 1171); (1172, 1173); (1174, 1175); (1176, 1177);
   (1178, 1179); (1180, 1181); (1182, 1183); (1184, 1185); (1186, 1187);
   (1188, 1189); (1190, 1191); (1192, 1193); (1194, 1195); (1196, 1197);
   (1198, 1199); (1200, 1201); (1202, 1203); (1204, 1205); (1206, 1207);
   (1208, 1209); (1210, 1211); (1212, 1213); (1214, 1215); (1216, 1231);
   (1217, 1218); (1219, 1220); (1221, 1222); (1223, 1224); (1225, 1226);
   (1227, 1228); (1229, 1230); (1232, 1233); (1234, 1235); (1236, 1237);
   (1238, 1239); (1240, 1241); (1242, 1243); (1244, 1245); (1246, 1247);
   (1248, 1249); (1250, 1251); (1252, 1253); (1254, 1255); (1256, 1257);
   (1258, 1259); (1260, 1261); (1262, 1263); (1264, 1265); (1266, 1267);
   (1268, 1269); (1270, 1271); (1272, 1273); (1274, 1275); (1276, 1277);
   (1278, 1279); (1280, 1281); (1282, 1283); (1284, 1285); (1286, 1287);
   (1288, 1289); (1290, 1291); (1292, 1293); (1294, 1295); (1296, 1297);
   (1298, 1299); (1300, 1301); (1302, 1303); (1304, 1305); (1306, 1307);
   (1308, 1309); (1310, 1311); (1312, 1313); (1314, 1315); (1316, 1317);
   (1318, 1319); (1320, 1321); (1322, 1323); (1324, 1325); (1326, 1327);
   (1329, 1377); (1330, 1378); (1331, 1379); (1332, 1380); (1333, 1381);
   (1334, 1382); (1335, 1383); (1336, 1384); (1337, 1385); (1338, 1386);
   (1339, 1387); (1340, 1388); (1341, 1389); (1342, 1390); (1343, 1391);
   (1344, 1392); (1345, 1393); (1346, 1394); (1347, 1395); (1348, 1396);
   (1349, 1397); (1350, 1398); (1351, 1399); (1352, 1400); (1353, 1401);
   (1354, 1402); (1355, 1403); (1356, 1404); (1357, 1405); (1358, 1406);
   (1359, 1407); (1360, 1408); (1361, 1409); (1362, 1410); (1363, 1411);
   (1364, 1412); (1365, 1413); (1366, 1414); (4256, 11520); (4257, 11521);
   (4258, 11522); (4259, 11523); (4260, 11524); (4261, 11525);
   (4262, 11526); (4263, 11527); (4264, 11528); (4265, 11529);
   (4266, 11530); (4267, 11531); (4268, 11532); (4269, 11533);
   (4270, 11534); (4271, 11535); (4272, 11536); (4273, 11537);
   (4274, 11538); (4275, 11539); (4276, 11540); (4277, 11541);
   (4278, 11542); (4279, 11543); (4280, 11544); (4281, 11545);
   (4282, 11546); (4283, 11547); (4284, 11548); (4285, 11549);
   (4286, 11550); (4287, 11551); (4288, 11552); (4289, 11553);
   (4290, 11554); (4291, 11555); (4292, 11556); (4293, 11557);
   (4295, 11559); (4301, 11565); (5024, 43888); (5025, 43889);
   (5026, 43890); (5027, 43891); (5028, 43892); (5029, 43893);
   (5030, 43894); (5031, 43895); (5032, 43896); (5033, 43897);
   (5034, 43898); (5035, 43899); (5036, 43900); (5037, 43901);
   (5038, 43902); (5039, 43903); (5040, 43904); (5041, 43905);
   (5042, 43906); (5043, 43907); (5044, 43908); (5045, 43909);
   (5046, 43910); (5047, 43911); (5048, 43912); (5049, 43913);
   (5050, 43914); (5051, 43915); (5052, 43916); (5053, 43917);
   (5054, 43918); (5055, 43919); (5056, 43920); (5057, 43921);
   (5058, 43922); (5059, 43923); (5060, 43924); (5061, 43925);
   (5062, 43926); (5063, 43927); (5064, 43928); (5065, 43929);
   (5066, 43930); (5067, 43931); (5068, 43932); (5069, 43933);
   (5070, 43934); (5071, 43935); (5072, 43936); (5073, 43937);
   (5074, 43938); (5075, 43939); (5076, 43940); (5077, 43941);
   (5078, 43942); (5079, 43943); (5080, 43944); (5081, 43945);
   (5082, 43946); (5083, 43947); (5084, 43948); (5085, 43949);
   (5086, 43950); (5087, 43951); (5088, 43952); (5089, 43953);
   (5090, 43954); (5091, 43955); (5092, 43956); (5093, 43957);
   (5094, 43958); (5095, 43959); (5096, 43960); (5097, 43961);
   (5098, 43962); (5099, 43963); (5100, 43964); (5101, 43965);
   (5102, 43966); (5103, 43967); (5104, 5112); (5105, 5113); (5106, 5114);
   (5107, 5115); (5108, 5116); (5109, 5117); (7312, 4304); (7313, 4305);
   (7314, 4306); (7315, 4307); (7316, 4308); (7317, 4309); (7318, 4310);
   (7319, 4311); (7320, 4312); (7321, 4313); (7322, 4314); (7323, 4315);
   (7324, 4316); (7325, 4317); (7326, 4318); (7327, 4319); (7328, 4320);
   (7329, 4321); (7330, 4322); (7331, 4323); (7332, 4324); (7333, 4325);
   (7334, 4326); (7335, 4327); (7336, 4328); (7337, 4329); (7338, 4330);
   (7339, 4331); (7340, 4332); (7341, 4333); (7342, 4334); (7343, 4335);
   (7344, 4336); (7345, 4337); (7346, 4338); (7347, 4339); (7348, 4340);
   (7349, 4341); (7350, 4342); (7351, 4343); (7352, 4344); (7353, 4345);
   (7354, 4346); (7357, 4349); (7358, 4350); (7359, 4351); (7680, 7681);
   (7682, 7683); (7684, 7685); (7686, 7687); (7688, 7689); (7690, 7691);
   (7692, 7693); (7694, 7695); (7696, 7697); (7698, 7699); (7700, 7701);
   (7702, 7703); (7704, 7705); (7706, 7707); (7708, 7709); (7710, 7711);
   (7712, 7713); (7714, 7715); (7716, 7717); (7718, 7719); (7720, 7721);
   (7722, 7723); (7724, 7725); (7726, 7727); (7728, 7729); (7730, 7731);
   (7732, 7733); (7734, 7735); (7736, 7737); (7738, 7739); (7740, 7741);
   (7742, 7743); (7744, 7745); (7746, 7747); (7748, 7749); (7750, 7751);
   (7752, 7753); (7754, 7755); (7756, 7757); (7758, 7759); (7760, 7761);
   (7762, 7763); (7764, 7765); (7766, 7767); (7768, 7769); (7770, 7771);
   (7772, 7773); (7774, 7775); (7776, 7777); (7778, 7779); (7780, 7781);
   (7782, 7783); (7784, 7785); (7786, 7787); (7788, 7789); (7790, 7791);
   (7792, 7793); (7794, 7795); (7796, 7797); (7798, 7799); (7800, 7801);
   (7802, 7803); (7804, 7805); (7806, 7807); (7808, 7809); (7810, 7811);
   (7812, 7813); (7814, 7815); (7816, 7817); (7818, 7819); (7820, 7821);
   (7822, 7823); (7824, 7825); (7826, 7827); (7828, 7829); (7838, 223);
   (7840, 7841); (7842, 7843); (7844, 7845); (7846, 7847); (7848, 7849);
   (7850, 7851); (7852, 7853); (7854, 7855); (7856, 7857); (7858, 7859);
   (7860, 7861); (7862, 7863); (7864, 7865); (7866, 7867); (7868, 7869);
   (7870, 7871); (7872, 7873); (7874, 7875); (7876, 7877); (7878, 7879);
   (7880, 7881); (7882, 7883); (7884, 7885); (7886, 7887); (7888, 7889);
   (7890, 7891); (7892, 7893); (7894, 7895); (7896, 7897); (7898, 7899);
   (7900, 7901); (7902, 7903); (7904, 7905); (7906, 7907); (7908, 7909);
   (7910, 7911); (7912, 7913); (7914, 7915); (7916, 7917); (7918, 7919);
   (7920, 7921); (7922, 7923); (7924, 7925); (7926, 7927); (7928, 7929);
   (7930, 7931); (7932, 7933); (7934, 7935); (7944, 7936); (7945, 7937);
   (7946, 7938); (7947, 7939); (7948, 7940); (7949, 7941); (7950, 7942);
   (7951, 7943); (7960, 7952); (7961, 7953); (7962, 7954); (7963, 7955);
   (7964, 7956); (7965, 7957); (7976, 7968); (7977, 7969); (7978, 7970);
   (7979, 7971); (7980, 7972); (7981, 7973); (7982, 7974); (7983, 7975);
   (7992, 7984); (7993, 7985); (7994, 7986); (7995, 7987); (7996, 7988);
   (7997, 7989); (7998, 7990); (7999, 7991); (8008, 8000); (8009, 8001);
   (8010, 8002); (8011, 8003); (8012, 8004); (8013, 8005); (8025, 8017);
   (8027, 8019); (8029, 8021); (8031, 8023); (8040, 8032); (8041, 8033);
   (8042, 8034); (8043, 8035); (8044, 8036); (8045, 8037); (8046, 8038);
   (8047, 8039); (8072, 8064); (8073, 8065); (8074, 8066); (8075, 8067);
   (8076, 8068); (8077, 8069); (8078, 8070); (8079, 8071); (8088, 8080);
   (8089, 8081); (8090, 8082); (8091, 8083); (8092, 8084); (8093, 8085);
   (8094, 8086); (8095, 8087); (8104, 8096); (8105, 8097); (8106, 8098);
   (8107, 8099); (8108, 8100); (8109, 8101); (8110, 8102); (8111, 8103);
   (8120, 8112); (8121, 8113); (8122, 8048); (8123, 8049); (8124, 8115);
   (8136, 8050); (8137, 8051); (8138, 8052); (8139, 8053); (8140, 8131);
   (8152, 8144); (8153, 8145); (8154, 8054); (8155, 8055); (8168, 8160);
   (8169, 8161); (8170, 8058); (8171, 8059); (8172, 8165); (8184, 8056);
   (8185, 8057); (8186, 8060); (8187, 8061); (8188, 8179); (8486, 969);
   (8490, 107); (8491, 229); (8498, 8526); (8544, 8560); (8545, 8561);
   (8546, 8562); (8547, 8563); (8548, 8564); (8549, 8565); (8550, 8566);
   (8551, 8567); (8552, 8568); (8553, 8569); (8554, 8570); (8555, 8571);
   (8556, 8572); (8557, 8573); (8558, 8574); (8559, 8575); (8579, 8580);
   (9398, 9424); (9399, 9425); (9400, 9426); (9401, 9427); (9402, 9428);
   (9403, 9429); (9404, 9430); (9405, 9431); (9406, 9432); (9407, 9433);
   (9408, 9434); (9409, 9435); (9410, 9436); (9411, 9437); (9412, 9438);
   (9413, 9439); (9414, 9440); (9415, 9441); (9416, 9442); (9417, 9443);
   (9418, 9444); (9419, 9445); (9420, 9446); (9421, 9447); (9422, 9448);
   (9423, 9449); (11264, 11312); (11265, 11313); (11266, 11314);
   (11267, 11315); (11268, 11316); (11269, 11317); (11270, 11318);
   (11271, 11319); (11272, 11320); (11273, 11321); (11274, 11322);
   (11275, 11323); (11276, 11324); (11277, 11325); (11278, 11326);
   (11279, 11327); (11280, 11328); (11281, 11329); (11282, 11330);
   (11283, 11331); (11284, 11332); (11285, 11333); (11286, 11334);
   (11287, 11335); (11288, 11336); (11289, 11337); (11290, 11338);
   (11291, 11339); (11292, 11340); (11293, 11341); (11294, 11342);
   (11295, 11343); (11296, 11344); (11297, 11345); (11298, 11346);
   (11299, 11347); (11300, 11348); (11301, 11349); (11302, 11350);
   (11303, 11351); (11304, 11352); (11305, 11353); (11306, 11354);
   (11307, 11355); (11308, 11356); (11309, 11357); (11310, 11358);
   (11311, 11359); (11360, 11361); (11362, 619); (11363, 7549);
   (11364, 637); (11367, 11368); (11369, 11370); (11371, 11372);
   (11373, 593); (11374, 625); (11375, 592); (11376, 594); (11378, 11379);
   (11381, 11382); (11390, 575); (11391, 576); (11392, 11393);
   (11394, 11395); (11396, 11397); (11398, 11399); (11400, 11401);
   (11402, 11403); (11404, 11405); (11406, 11407); (11408, 11409);
   (11410, 11411); (11412, 11413); (11414, 11415); (11416, 11417);
   (11418, 11419); (11420, 11421); (11422, 11423); (11424, 11425);
   (11426, 11427); (11428, 11429); (11430, 11431); (11432, 11433);
   (11434, 11435); (11436, 11437); (11438, 11439); (11440, 11441);
   (11442, 11443); (11444, 11445); (11446, 11447); (11448, 11449);
   (11450, 11451); (11452, 11453); (11454, 11455); (11456, 11457);
   (11458, 11459); (11460, 11461); (11462, 11463); (11464, 11465);
   (11466, 11467); (11468, 11469); (11470, 11471); (11472, 11473);
   (11474, 11475); (11476, 11477); (11478, 11479); (11480, 11481);
   (11482, 11483); (11484, 11485); (11486, 11487); (11488, 11489);
   (11490, 11491); (11499, 11500); (11501, 11502); (11506, 11507);
   (42560, 42561); (42562, 42563); (42564, 42565); (42566, 42567);
   (42568, 42569); (42570, 42571); (42572, 42573); (42574, 42575);
   (42576, 42577); (42578, 42579); (42580, 42581); (42582, 42583);
   (42584, 42585); (42586, 42587); (42588, 42589); (42590, 42591);
   (42592, 42593); (42594, 42595); (42596, 42597); (42598, 42599);
   (42600, 42601); (42602, 42603); (42604, 42605); (42624, 42625);
   (42626, 42627); (42628, 42629); (42630, 42631); (42632, 42633);
   (42634, 42635); (42636, 42637); (42638, 42639); (42640, 42641);
   (42642, 42643); (42644, 42645); (42646, 42647); (42648, 42649);
   (42650, 42651); (42786, 42787); (42788, 42789); (42790, 42791);
   (42792, 42793); (42794, 42795); (42796, 42797); (42798, 42799);
   (42802, 42803); (42804, 42805); (42806, 42807); (42808, 42809);
   (42810, 42811); (42812, 42813); (42814, 42815); (42816, 42817);
   (42818, 42819); (42820, 42821); (42822, 42823); (42824, 42825);
   (42826, 42827); (42828, 42829); (42830, 42831); (42832, 42833);
   (42834, 42835); (42836, 42837); (42838, 42839); (42840, 42841);
   (42842, 42843); (42844, 42845); (42846, 42847); (42848, 42849);
   (42850, 42851); (42852, 42853); (42854, 42855); (42856, 42857);
   (42858, 42859); (42860, 42861); (42862, 42863); (42873, 42874);
   (42875, 42876); (42877, 7545); (42878, 42879); (42880, 42881);
   (42882, 42883); (42884, 42885); (42886, 42887); (42891, 42892);
   (42893, 613); (42896, 42897); (42898, 42899); (42902, 42903);
   (42904, 42905); (42906, 42907); (42908, 42909); (42910, 42911);
   (42912, 42913); (42914, 42915); (42916, 42917); (42918, 42919);
   (42920, 42921); (42922, 614); (42923, 604); (42924, 609); (42925, 620);
   (42926, 618); (42928, 670); (42929, 647); (42930, 669); (42931, 43859);
   (42932, 42933); (42934, 42935); (42936, 42937); (42938, 42939);
   (42940, 42941); (42942, 42943); (42944, 42945); (42946, 42947);
   (42948, 42900); (42949, 642); (42950, 7566); (42951, 42952);
   (42953, 42954); (42960, 42961); (42966, 42967); (42968, 42969);
   (42997, 42998); (65313, 65345); (65314, 65346); (65315, 65347);
   (65316, 65348); (65317, 65349); (65318, 65350); (65319, 65351);
   (65320, 65352); (65321, 65353); (65322, 65354); (65323, 65355);
   (65324, 65356); (65325, 65357); (65326, 65358); (65327, 65359);
   (65328, 65360); (65329, 65361); (65330, 65362); (65331, 65363);
   (65332, 65364); (65333, 65365); (65334, 65366); (65335, 65367);
   (65336, 65368); (65337, 65369); (65338, 65370); (66560, 66600);
   (66561, 66601); (66562, 66602); (66563, 66603); (66564, 66604);
   (66565, 66605); (66566, 66606); (66567, 66607); (66568, 66608);
   (66569, 66609); (66570, 66610); (66571, 66611); (66572, 66612);
   (66573, 66613); (66574, 66614); (66575, 66615); (66576, 66616);
   (66577, 66617); (66578, 66618); (66579, 66619); (66580, 66620);
   (66581, 66621); (66582, 66622); (66583, 66623); (66584, 66624);
   (66585, 66625); (66586, 66626); (66587, 66627); (66588, 66628);
   (66589, 66629); (66590, 66630); (66591, 66631); (66592, 66632);
   (66593, 66633); (66594, 66634); (66595, 66635); (66596, 66636);
   (66597, 66637); (66598, 66638); (66599, 66639); (66736, 66776);
   (66737, 66777); (66738, 66778); (66739, 66779); (66740, 66780);
   (66741, 66781); (66742, 66782); (66743, 66783); (66744, 66784);
   (66745, 66785); (66746, 66786); (66747, 66787); (66748, 66788);
   (66749, 66789); (66750, 66790); (66751, 66791); (66752, 66792);
   (66753, 66793); (66754, 66794); (66755, 66795); (66756, 66796);
   (66757, 66797); (66758, 66798); (66759, 66799); (66760, 66800);
   (66761, 66801); (66762, 66802); (66763, 66803); (66764, 66804);
   (66765, 66805); (66766, 66806); (66767, 66807); (66768, 66808);
   (66769, 66809); (66770, 66810); (66771, 66811); (66928, 66967);
   (66929, 66968); (66930, 66969); (66931, 66970); (66932, 66971);
   (66933, 66972); (66934, 66973); (66935, 66974); (66936, 66975);
   (66937, 66976); (66938, 66977); (66940, 66979); (66941, 66980);
   (66942, 66981); (66943, 66982); (66944, 66983); (66945, 66984);
   (66946, 66985); (66947, 66986); (66948, 66987); (66949, 66988);
   (66950, 66989); (66951, 66990); (66952, 66991); (66953, 66992);
   (66954, 66993); (66956, 66995); (66957, 66996); (66958, 66997);
   (66959, 66998); (66960, 66999); (66961, 67000); (66962, 67001);
   (66964, 67003); (66965, 67004); (68736, 68800); (68737, 68801);
   (68738, 68802); (68739, 68803); (68740, 68804); (68741, 68805);
   (68742, 68806); (68743, 68807); (68744, 68808); (68745, 68809);
   (68746, 68810); (68747, 68811); (68748, 68812); (68749, 68813);
   (68750, 68814); (68751, 68815); (68752, 68816); (68753, 68817);
   (68754, 68818); (68755, 68819); (68756, 68820); (68757, 68821);
   (68758, 68822); (68759, 68823); (68760, 68824); (68761, 68825);
   (68762, 68826); (68763, 68827); (68764, 68828); (68765, 68829);
   (68766, 68830); (68767, 68831); (68768, 68832); (68769, 68833);
   (68770, 68834); (68771, 68835); (68772, 68836); (68773, 68837);
   (68774, 68838); (68775, 68839); (68776, 68840); (68777, 68841);
   (68778, 68842); (68779, 68843); (68780, 68844); (68781, 68845);
   (68782, 68846); (68783, 68847); (68784, 68848); (68785, 68849);
   (68786, 68850); (71840, 71872); (71841, 71873); (71842, 71874);
   (71843, 71875); (71844, 71876); (71845, 71877); (71846, 71878);
   (71847, 71879); (71848, 71880); (71849, 71881); (71850, 71882);
   (71851, 71883); (71852, 71884); (71853, 71885); (71854, 71886);
   (71855, 71887); (71856, 71888); (71857, 71889); (71858, 71890);
   (71859, 71891); (71860, 71892); (71861, 71893); (71862, 71894);
   (71863, 71895); (71864, 71896); (71865, 71897); (71866, 71898);
   (71867, 71899); (71868, 71900); (71869, 71901); (71870, 71902);
   (71871, 71903); (93760, 93792); (93761, 93793); (93762, 93794);
   (93763, 93795); (93764, 93796); (93765, 93797); (93766, 93798);
   (93767, 93799); (93768, 93800); (93769, 93801); (93770, 93802);
   (93771, 93803); (93772, 93804); (93773, 93805); (93774, 93806);
   (93775, 93807); (93776, 93808); (93777, 93809); (93778, 93810);
   (93779, 93811); (93780, 93812); (93781, 93813); (93782, 93814);
   (93783, 93815); (93784, 93816); (93785, 93817); (93786, 93818);
   (93787, 93819); (93788, 93820); (93789, 93821); (93790, 93822);
   (93791, 93823); (125184, 125218); (125185, 125219); (125186, 125220);
   (125187, 125221); (125188, 125222); (125189, 125223); (125190, 125224);
   (125191, 125225); (125192, 125226); (125193, 125227); (125194, 125228);
   (125195, 125229); (125196, 125230); (125197, 125231); (125198, 125232);
   (125199, 125233); (125200, 125234); (125201, 125235); (125202, 125236);
   (125203, 125237); (125204, 125238); (125205, 125239); (125206, 125240);
   (125207, 125241); (125208, 125242); (125209, 125243); (125210, 125244);
   (125211, 125245); (125212, 125246); (125213, 125247); (125214, 125248);
   (125215, 125249); (125216, 125250); (125217, 125251)]%N.

(** The characters from 128 on that have a case and are their own
    lower case, as ranges ([_sre.unicode_iscased]). *)
Definition cased_ranges : list (N * N) :=
  [(181, 181); (223, 246); (248, 255); (257, 257); (259, 259); (261, 261);
   (263, 263); (265, 265); (267, 267); (269, 269); (271, 271); (273, 273);
   (275, 275); (277, 277); (279, 279); (281, 281); (283, 283); (285, 285);
   (287, 287); (289, 289); (291, 291); (293, 293); (295, 295); (297, 297);
   (299, 299); (301, 301); (303, 303); (305, 305); (307, 307); (309, 309);
   (311, 311); (314, 314); (316, 316); (318, 318); (320, 320); (322, 322);
   (324, 324); (326, 326); (328, 329); (331, 331); (333, 333); (335, 335);
   (337, 337); (339, 339); (341, 341); (343, 343); (345, 345); (347, 347);
   (349, 349); (351, 351); (353, 353); (355, 355); (357, 357); (359, 359);
   (361, 361); (363, 363); (365, 365); (367, 367); (369, 369); (371, 371);
   (373, 373); (375, 375); (378, 378); (380, 380); (382, 384); (387, 387);
   (389, 389); (392, 392); (396, 396); (402, 402); (405, 405); (409, 410);
   (414, 414); (417, 417); (419, 419); (421, 421); (424, 424); (429, 429);
   (432, 432); (436, 436); (438, 438); (441, 441); (445, 445); (447, 447);
   (454, 454); (457, 457); (460, 460); (462, 462); (464, 464); (466, 466);
   (468, 468); (470, 470); (472, 472); (474, 474); (476, 477); (479, 479);
   (481, 481); (483, 483); (485, 485); (487, 487); (489, 489); (491, 491);
   (493, 493); (495, 496); (499, 499); (501, 501); (505, 505); (507, 507);
   (509, 509); (511, 511); (513, 513); (515, 515); (517, 517); (519, 519);
   (521, 521); (523, 523); (525, 525); (527, 527); (529, 529); (531, 531);
   (533, 533); (535, 535); (537, 537); (539, 539); (541, 541); (543, 543);
   (547, 547); (549, 549); (551, 551); (553, 553); (555, 555); (557, 557);
   (559, 559); (561, 561); (563, 563); (572, 572); (575, 576); (578, 578);
   (583, 583); (585, 585); (587, 587); (589, 589); (591, 596); (598, 599);
   (601, 601); (603, 604); (608, 609); (611, 611); (613, 614); (616, 620);
   (623, 623); (625, 626); (629, 629); (637, 637); (640, 640); (642, 643);
   (647, 652); (658, 658); (669, 670); (837, 837); (881, 881); (883, 883);
   (887, 887); (891, 893); (912, 912); (940, 974); (976, 977); (981, 983);
   (985, 985); (987, 987); (989, 989); (991, 991); (993, 993); (995, 995);
   (997, 997); (999, 999); (1001, 1001); (1003, 1003); (1005, 1005);
   (1007, 1011); (1013, 1013); (1016, 1016); (1019, 1019); (1072, 1119);
   (1121, 1121); (1123, 1123); (1125, 1125); (1127, 1127); (1129, 1129);
   (1131, 1131); (1133, 1133); (1135, 1135); (1137, 1137); (1139, 1139);
   (1141, 1141); (1143, 1143); (1145, 1145); (1147, 1147); (1149, 1149);
   (1151, 1151); (1153, 1153); (1163, 1163); (1165, 1165); (1167, 1167);
   (1169, 1169); (1171, 1171); (1173, 1173); (1175, 1175); (1177, 1177);
   (1179, 1179); (1181, 1181); (1183, 1183); (1185, 1185); (1187, 1187);
   (1189, 1189); (1191, 1191); (1193, 1193); (1195, 1195); (1197, 1197);
   (1199, 1199); (1201, 1201); (1203, 1203); (1205, 1205); (1207, 1207);
   (1209, 1209); (1211, 1211); (1213, 1213); (1215, 1215); (1218, 1218);
   (1220, 1220); (1222, 1222); (1224, 1224); (1226, 1226); (1228, 1228);
   (1230, 1231); (1233, 1233); (1235, 1235); (1237, 1237); (1239, 1239);
   (1241, 1241); (1243, 1243); (1245, 1245); (1247, 1247); (1249, 1249);
   (1251, 1251); (1253, 1253); (1255, 1255); (1257, 1257); (1259, 1259);
   (1261, 1261); (1263, 1263); (1265, 1265); (1267, 1267); (1269, 1269);
   (1271, 1271); (1273, 1273); (1275, 1275); (1277, 1277); (1279, 1279);
   (1281, 1281); (1283, 1283); (1285, 1285); (1287, 1287); (1289, 1289);
   (1291, 1291); (1293, 1293); (1295, 1295); (1297, 1297); (1299, 1299);
   (1301, 1301); (1303, 1303); (1305, 1305); (1307, 1307); (1309, 1309);
   (1311, 1311); (1313, 1313); (1315, 1315); (1317, 1317); (1319, 1319);
   (1321, 1321); (1323, 1323); (1325, 1325); (1327, 1327); (1377, 1415);
   (4304, 4346); (4349, 4351); (5112, 5117); (7296, 7304); (7545, 7545);
   (7549, 7549); (7566, 7566); (7681, 7681); (7683, 7683); (7685, 7685);
   (7687, 7687); (7689, 7689); (7691, 7691); (7693, 7693); (7695, 7695);
   (7697, 7697); (7699, 7699); (7701, 7701); (7703, 7703); (7705, 7705);
   (7707, 7707); (7709, 7709); (7711, 7711); (7713, 7713); (7715, 7715);
   (7717, 7717); (7719, 7719); (7721, 7721); (7723, 7723); (7725, 7725);
   (7727, 7727); (7729, 7729); (7731, 7731); (7733, 7733); (7735, 7735);
   (7737, 7737); (7739, 7739); (7741, 7741); (7743, 7743); (7745, 7745);
   (7747, 7747); (7749, 7749); (7751, 7751); (7753, 7753); (7755, 7755);
   (7757, 7757); (7759, 7759); (7761, 7761); (7763, 7763); (7765, 7765);
   (7767, 7767); (7769, 7769); (7771, 7771); (7773, 7773); (7775, 7775);
   (7777, 7777); (7779, 7779); (7781, 7781); (7783, 7783); (7785, 7785);
   (7787, 7787); (7789, 7789); (7791, 7791); (7793, 7793); (7795, 7795);
   (7797, 7797); (7799, 7799); (7801, 7801); (7803, 7803); (7805, 7805);
   (7807, 7807); (7809, 7809); (7811, 7811); (7813, 7813); (7815, 7815);
   (7817, 7817); (7819, 7819); (7821, 7821); (7823, 7823); (7825, 7825);
   (7827, 7827); (7829, 7835); (7841, 7841); (7843, 7843); (7845, 7845);
   (7847, 7847); (7849, 7849); (7851, 7851); (7853, 7853); (7855, 7855);
   (7857, 7857); (7859, 7859); (7861, 7861); (7863, 7863); (7865, 7865);
   (7867, 7867); (7869, 7869); (7871, 7871); (7873, 7873); (7875, 7875);
   (7877, 7877); (7879, 7879); (7881, 7881); (7883, 7883); (7885, 7885);
   (7887, 7887); (7889, 7889); (7891, 7891); (7893, 7893); (7895, 7895);
   (7897, 7897); (7899, 7899); (7901, 7901); (7903, 7903); (7905, 7905);
   (7907, 7907); (7909, 7909); (7911, 7911); (7913, 7913); (7915, 7915);
   (7917, 7917); (7919, 7919); (7921, 7921); (7923, 7923); (7925, 7925);
   (7927, 7927); (7929, 7929); (7931, 7931); (7933, 7933); (7935, 7943);
   (7952, 7957); (7968, 7975); (7984, 7991); (8000, 8005); (8016, 8023);
   (8032, 8039); (8048, 8061); (8064, 8071); (8080, 8087); (8096, 8103);
   (8112, 8116); (8118, 8119); (8126, 8126); (8130, 8132); (8134, 8135);
   (8144, 8147); (8150, 8151); (8160, 8167); (8178, 8180); (8182, 8183);
   (8526, 8526); (8560, 8575); (8580, 8580); (9424, 9449); (11312, 11359);
   (11361, 11361); (11365, 11366); (11368, 11368); (11370, 11370);
   (11372, 11372); (11379, 11379); (11382, 11382); (11393, 11393);
   (11395, 11395); (11397, 11397); (11399, 11399); (11401, 11401);
   (11403, 11403); (11405, 11405); (11407, 11407); (11409, 11409);
   (11411, 11411); (11413, 11413); (11415, 11415); (11417, 11417);
   (11419, 11419); (11421, 11421); (11423, 11423); (11425, 11425);
   (11427, 11427); (11429, 11429); (11431, 11431); (11433, 11433);
   (11435, 11435); (11437, 11437); (11439, 11439); (11441, 11441);
   (11443, 11443); (11445, 11445); (11447, 11447); (11449, 11449);
   (11451, 11451); (11453, 11453); (11455, 11455); (11457, 11457);
   (11459, 11459); (11461, 11461); (11463, 11463); (11465, 11465);
   (11467, 11467); (11469, 11469); (11471, 11471); (11473, 11473);
   (11475, 11475); (11477, 11477); (11479, 11479); (11481, 11481);
   (11483, 11483); (11485, 11485); (11487, 11487); (11489, 11489);
   (11491, 11491); (11500, 11500); (11502, 11502); (11507, 11507);
   (11520, 11557); (11559, 11559); (11565, 11565); (42561, 42561);
   (42563, 42563); (42565, 42565); (42567, 42567); (42569, 42569);
   (42571, 42571); (42573, 42573); (42575, 42575); (42577, 42577);
   (42579, 42579); (42581, 42581); (42583, 42583); (42585, 42585);
   (42587, 42587); (42589, 42589); (42591, 42591); (42593, 42593);
   (42595, 42595); (42597, 42597); (42599, 42599); (42601, 42601);
   (42603, 42603); (42605, 42605); (42625, 42625); (42627, 42627);
   (42629, 42629); (42631, 42631); (42633, 42633); (42635, 42635);
   (42637, 42637); (42639, 42639); (42641, 42641); (42643, 42643);
   (42645, 42645); (42647, 42647); (42649, 42649); (42651, 42651);
   (42787, 42787); (42789, 42789); (42791, 42791); (42793, 42793);
   (42795, 42795); (42797, 42797); (42799, 42799); (42803, 42803);
   (42805, 42805); (42807, 42807); (42809, 42809); (42811, 42811);
   (42813, 42813); (42815, 42815); (42817, 42817); (42819, 42819);
   (42821, 42821); (42823, 42823); (42825, 42825); (42827, 42827);
   (42829, 42829); (42831, 42831); (42833, 42833); (42835, 42835);
   (42837, 42837); (42839, 42839); (42841, 42841); (42843, 42843);
   (42845, 42845); (42847, 42847); (42849, 42849); (42851, 42851);
   (42853, 42853); (42855, 42855); (42857, 42857); (42859, 42859);
   (42861, 42861); (42863, 42863); (42874, 42874); (42876, 42876);
   (42879, 42879); (42881, 42881); (42883, 42883); (42885, 42885);
   (42887, 42887); (42892, 42892); (42897, 42897); (42899, 42900);
   (42903, 42903); (42905, 42905); (42907, 42907); (42909, 42909);
   (42911, 42911); (42913, 42913); (42915, 42915); (42917, 42917);
   (42919, 42919); (42921, 42921); (42933, 42933); (42935, 42935);
   (42937, 42937); (42939, 42939); (42941, 42941); (42943, 42943);
   (42945, 42945); (42947, 42947); (42952, 42952); (42954, 42954);
   (42961, 42961); (42967, 42967); (42969, 42969); (42998, 42998);
   (43859, 43859); (43888, 43967); (64256, 64262); (64275, 64279);
   (65345, 65370); (66600, 66639); (66776, 66811); (66967, 66977);
   (66979, 66993); (66995, 67001); (67003, 67004); (68800, 68850);
   (71872, 71903); (93792, 93823); (125218, 125251)]%N.

(** Lower-case characters that are read as one another although the
    mapping keeps them apart ([re._casefix._EXTRA_CASES]). *)
Definition fix_table : list (N * list N) :=
  [(105, [305]); (115, [383]); (181, [956]); (305, [105]); (383, [115]);
   (837, [953; 8126]); (912, [8147]); (944, [8163]); (946, [976]);
   (949, [1013]); (952, [977]); (953, [837; 8126]); (954, [1008]);
   (956, [181]); (960, [982]); (961, [1009]); (962, [963]); (963, [962]);
   (966, [981]); (976, [946]); (977, [952]); (981, [966]); (982, [960]);
   (1008, [954]); (1009, [961]); (1013, [949]); (1074, [7296]);
   (1076, [7297]); (1086, [7298]); (1089, [7299]); (1090, [7300; 7301]);
   (1098, [7302]); (1123, [7303]); (7296, [1074]); (7297, [1076]);
   (7298, [1086]); (7299, [1089]); (7300, [1090; 7301]);
   (7301, [1090; 7300]); (7302, [1098]); (7303, [1123]); (7304, [42571]);
   (7777, [7835]); (7835, [7777]); (8126, [837; 953]); (8147, [912]);
   (8163, [944]); (42571, [7304]); (64261, [64262]); (64262, [64261])]%N.

Fixpoint assoc {A : Type} (c : N) (table : list (N * A)) : option A :=
  match table with
  | [] => None
  | (k, v) :: table' => if N.eqb c k then Some v else assoc c table'
  end.

Definition in_ranges (c : N) (ranges : list (N * N)) : bool :=
  existsb (fun r => N.leb (fst r) c && N.leb c (snd r)) ranges.

Definition is_ascii_upper (c : N) : bool := N.leb 65 c && N.leb c 90.
Definition is_ascii_lower (c : N) : bool := N.leb 97 c && N.leb c 122.

Definition tolower (c : N) : N :=
  if N.ltb c 128 then (if is_ascii_upper c then c + 32 else c)%N
  else default c (assoc c lower_table).

Definition iscased (c : N) : bool :=
  if N.ltb c 128 then is_ascii_upper c || is_ascii_lower c
  else match assoc c lower_table with
       | Some _ => true
       | None => in_ranges c cased_ranges
       end.

Definition fixes (lo : N) : list N := default [] (assoc lo fix_table).

(** Two ways to compare a character [p] of a pattern with a character
    [c] of the subject: exactly, or as the engine does for a literal
    under [re.IGNORECASE].  There a [p] without case is compared exactly;
    for a [p] with a case the lower case of [c] has to be the lower case
    of [p] or one of the characters that fold with it. *)
Definition same : N -> N -> bool := N.eqb.

Definition same_ci (p c : N) : bool :=
  if iscased p
  then if N.eqb (tolower c) (tolower p) then true
       else existsb (N.eqb (tolower c)) (fixes (tolower p))
  else N.eqb c p.
Arguments same_ci p c : simpl never.

(** [strip eqc pat s]: when [s] starts with [pat] (characters compared
    with [eqc]), what follows it. *)
Fixpoint strip (eqc : N -> N -> bool) (pat s : text) : option text :=
  match pat with
  | [] => Some s
  | p :: pat' =>
      match s with
      | [] => None
      | c :: s' => if eqc p c then strip eqc pat' s' else None
      end
  end.

Definition startswith (eqc : N -> N -> bool) (pat s : text) : bool :=
  match strip eqc pat s with Some _ => true | None => false end.

(** [occurs eqc pat s]: [pat] occurs somewhere in [s] ([pat in s] of
    Python when [eqc] is [same]). *)
Fixpoint occurs (eqc : N -> N -> bool) (pat s : text) : bool :=
  startswith eqc pat s ||
  match s with
  | [] => false
  | _ :: s' => occurs eqc pat s'
  end.

Definition text_eqb (a b : text) : bool := bool_decide (a = b).

(** [str.endswith]. *)
Definition endswith (s suffix : text) : bool :=
  (length suffix <=? length s) &&
  text_eqb (skipn (length s - length suffix) s) suffix.

(** [str.replace(old, new)]: every occurrence of [old], found from left
    to right without overlap, becomes [new].  [skip] counts the
    characters of an occurrence that are still to be passed over.  With
    an empty [old] Python puts [new] around every character. *)
Fixpoint replace_from (old new : text) (skip : nat) (s : text) : text :=
  match s with
  | [] => []
  | c :: s' =>
      match skip with
      | S k => replace_from old new k s'
      | O =>
          if startswith same old s
          then new ++ replace_from old new (length old - 1) s'
          else c :: replace_from old new 0 s'
      end
  end.

Definition str_replace (s old new : text) : text :=
  match old with
  | [] => new ++ flat_map (fun c => c :: new) s
  | _ :: _ => replace_from old new 0 s
  end.

(** ** Regular expressions: the fragment the script uses *)

(** A member of a character set [[...]]. *)
Inductive set_item :=
| SChar (c : N)
| SSpace          (* \s *)
| SNotSpace.      (* \S *)

(** What matches one character. *)
Inductive atom :=
| Lit (c : N)
| Dot
| CharSet (negated : bool) (items : list set_item).

Inductive quant :=
| One
| Star            (* x*  *)
| Plus            (* x+  *)
| StarLazy        (* x*? *)
| PlusLazy.       (* x+? *)

(** A pattern of this fragment is a sequence of quantified atoms: no
    groups, no alternation, no anchors. *)
Definition regex := list (atom * quant).

(** *** [re.escape] *)

Definition special_chars : text :=
  txt "()[]{}?*+-|^$\.&~# " ++ [9; 10; 13; 11; 12]%N.

Definition is_special (c : N) : bool := existsb (N.eqb c) special_chars.

Definition re_escape (s : text) : text :=
  flat_map (fun c => if is_special c then [backslash; c] else [c]) s.

(** *** [re.compile]: the parser *)

(** ASCII letters and digits: what the parser does not accept behind a
    backslash as an escaped character. *)
Definition is_alnum (c : N) : bool :=
  (N.leb 48 c && N.leb c 57) || is_ascii_upper c || is_ascii_lower c.

Inductive pstate :=
| PTop
| PEsc                                           (* after a backslash *)
| PSetStart                                      (* after [ *)
| PSet (negated : bool) (items : list set_item)  (* inside [...], items reversed *)
| PSetEsc (negated : bool) (items : list set_item).

(** A repetition sign applies to the piece read last; a second sign on
    the same piece is only accepted as the [?] that makes it lazy. *)
Definition requantify (sign : N) (acc : regex) : option regex :=
  match acc with
  | [] => None                                   (* nothing to repeat *)
  | (a, q) :: acc' =>
      match q with
      | One =>
          if N.eqb sign (ch "*") then Some ((a, Star) :: acc')
          else if N.eqb sign (ch "+") then Some ((a, Plus) :: acc')
          else None                              (* x? is outside the fragment *)
      | Star => if N.eqb sign (ch "?") then Some ((a, StarLazy) :: acc') else None
      | Plus => if N.eqb sign (ch "?") then Some ((a, PlusLazy) :: acc') else None
      | StarLazy | PlusLazy => None              (* multiple repeat *)
      end
  end.

Definition is_repeat_sign (c : N) : bool :=
  N.eqb c (ch "*") || N.eqb c (ch "+") || N.eqb c (ch "?").

(** Characters that open a construct outside the fragment. *)
Definition is_unsupported (c : N) : bool :=
  existsb (N.eqb c) (txt "()|^${").

Definition in_set (negated : bool) (items : list set_item) (c : N)
  : option pstate :=
  if N.eqb c backslash then Some (PSetEsc negated items)
  else if N.eqb c (ch "-") then None             (* ranges are outside the fragment *)
  else Some (PSet negated (SChar c :: items)).

Definition pstep (st : pstate) (acc : regex) (c : N)
  : option (pstate * regex) :=
  match st with
  | PTop =>
      if N.eqb c backslash then Some (PEsc, acc)
      else if N.eqb c (ch "[") then Some (PSetStart, acc)
      else if is_repeat_sign c then
        match requantify c acc with
        | Some acc' => Some (PTop, acc')
        | None => None
        end
      else if N.eqb c (ch ".") then Some (PTop, (Dot, One) :: acc)
      else if is_unsupported c then None
      else Some (PTop, (Lit c, One) :: acc)
  | PEsc =>
      if is_alnum c then None                    (* \d, \1, ...: outside the fragment *)
      else Some (PTop, (Lit c, One) :: acc)
  | PSetStart =>
      if N.eqb c (ch "^") then Some (PSet true [], acc)
      else match in_set false [] c with
           | Some st' => Some (st', acc)
           | None => None
           end
  | PSet negated items =>
      if N.eqb c (ch "]") && negb (match items with [] => true | _ => false end)
      then Some (PTop, (CharSet negated (rev items), One) :: acc)
      else match in_set negated items c with
           | Some st' => Some (st', acc)
           | None => None
           end
  | PSetEsc negated items =>
      if N.eqb c (ch "s") then Some (PSet negated (SSpace :: items), acc)
      else if N.eqb c (ch "S") then Some (PSet negated (SNotSpace :: items), acc)
      else if is_alnum c then None
      else Some (PSet negated (SChar c :: items), acc)
  end.

(** The pieces are collected in reverse. *)
Fixpoint parse (st : pstate) (acc : regex) (s : text) : option regex :=
  match s with
  | [] => match st with PTop => Some acc | _ => None end
  | c :: s' =>
      match pstep st acc c with
      | Some (st', acc') => parse st' acc' s'
      | None => None
      end
  end.

(** A compiled pattern: its pieces and whether [re.IGNORECASE] is set. *)
Record pattern := { ignorecase : bool; pieces : regex }.

(** [re.compile(pat, flags)]; [None] stands for [re.error] (or for a
    pattern outside the fragment). *)
Definition re_compile (pat : text) (flag_i : bool) : option pattern :=
  match parse PTop [] pat with
  | Some acc => Some {| ignorecase := flag_i; pieces := rev acc |}
  | None => None
  end.

(** *** Matching *)

(** White space, as [\s] reads it in a [str] pattern. *)
Definition is_space (c : N) : bool :=
  (N.leb 9 c && N.leb c 13) || (N.leb 28 c && N.leb c 32)
  || existsb (N.eqb c) [133; 160; 5760; 8232; 8233; 8239; 8287; 12288]%N
  || (N.leb 8192 c && N.leb c 8202).

Definition char_eq (ic : bool) : N -> N -> bool :=
  if ic then same_ci else same.

Definition item_matches (ic : bool) (c : N) (i : set_item) : bool :=
  match i with
  | SChar d => char_eq ic d c
  | SSpace => is_space c
  | SNotSpace => negb (is_space c)
  end.

Definition atom_matches (ic : bool) (a : atom) (c : N) : bool :=
  match a with
  | Lit d => char_eq ic d c
  | Dot => negb (N.eqb c newline)
  | CharSet negated items => xorb negated (existsb (item_matches ic c) items)
  end.

(** A matcher takes the text at the current position and gives the text
    after the match, or [None].  The matchers below take the matcher of
    the rest of the pattern as their continuation [k], which is how the
    backtracking engine orders its attempts. *)
Abbreviation matcher := (text -> option text).

Definition once (P : N -> bool) (k : matcher) : matcher :=
  fun s =>
    match s with
    | c :: s' => if P c then k s' else None
    | [] => None
    end.

(** Greedy repetition: as many characters as possible, giving back one
    at a time while the rest of the pattern fails. *)
Fixpoint greedy (P : N -> bool) (k : matcher) (s : text) : option text :=
  match s with
  | c :: s' =>
      if P c
      then match greedy P k s' with
           | Some r => Some r
           | None => k s
           end
      else k s
  | [] => k s
  end.

(** Lazy repetition: as few characters as possible, taking one more
    while the rest of the pattern fails. *)
Fixpoint lazy (P : N -> bool) (k : matcher) (s : text) : option text :=
  match k s with
  | Some r => Some r
  | None =>
      match s with
      | c :: s' => if P c then lazy P k s' else None
      | [] => None
      end
  end.

Fixpoint run (ic : bool) (re : regex) : matcher :=
  match re with
  | [] => fun s => Some s
  | (a, q) :: re' =>
      let P := atom_matches ic a in
      let k := run ic re' in
      match q with
      | One => once P k
      | Star => greedy P k
      | Plus => once P (greedy P k)
      | StarLazy => lazy P k
      | PlusLazy => once P (lazy P k)
      end
  end.

(** [Pattern.match] at the start of [s]: the text after the match. *)
Definition re_match (p : pattern) : matcher := run (ignorecase p) (pieces p).

(** [Pattern.sub(lambda m: repl, s)]: the matches found from left to
    right, none overlapping an earlier one, are replaced by [repl], which
    is taken as it is (the script passes a function, so no escape of
    [repl] is interpreted).  After an empty match the scan moves on by
    one character, which it copies. *)
Fixpoint sub_from (m : matcher) (repl : text) (skip : nat) (s : text) : text :=
  match s with
  | [] =>
      match skip, m [] with
      | O, Some _ => repl
      | _, _ => []
      end
  | c :: s' =>
      match skip with
      | S k => sub_from m repl k s'
      | O =>
          match m s with
          | Some rest =>
              match length s - length rest with
              | O => repl ++ c :: sub_from m repl 0 s'
              | S k => repl ++ sub_from m repl k s'
              end
          | None => c :: sub_from m repl 0 s'
          end
      end
  end.

Definition re_sub (p : pattern) (repl s : text) : text :=
  sub_from (re_match p) repl 0 s.

(** ** The host and the file system, as the script sees them *)

Inductive exn :=
| OSError              (* open, read or listdir fails *)
| UnicodeDecodeError   (* a file is not UTF-8 text *)
| re_error             (* re.compile rejects a pattern *)
| SecretsNotFound.     (* st.secrets finds no secrets file to read *)

(** A computation that returns or raises. *)
Inductive result (A : Type) :=
| Ok (a : A)
| Raise (e : exn).
Arguments Ok {A} a.
Arguments Raise {A} e.

#[global] Instance result_ret : MRet result := fun A a => Ok a.
#[global] Instance result_bind : MBind result :=
  fun A B f m => match m with Ok a => f a | Raise e => Raise e end.

Inductive file :=
| Readable (content : text)
| Unreadable (e : exn).

(** [dist/assets]: absent, a directory with its entries in the order
    [os.listdir] gives them, or something that exists and cannot be
    listed. *)
Inductive assets_node :=
| NoAssets
| AssetsDir (entries : list (text * file))
| AssetsNotDir.

(** [dist], when it exists. *)
Record build := {
  index_html : option file;
  assets : assets_node
}.

(** The secrets store of the host: it reads a secrets file, and there
    may be none.  A value is taken as the text the script writes for
    it. *)
Inductive secrets_store :=
| NoSecretsFile
| SecretsFile (values : gmap string text).

Record world := {
  dist : option build;
  environ : gmap string text;       (* os.environ *)
  secrets : secrets_store           (* st.secrets *)
}.

(** What the host is asked to show. *)
Inductive ui_call :=
| st_error (msg : text)
| st_components_html (html : text) (height : Z) (scrolling : bool).

Inductive completion :=
| Returned
| Raised (e : exn).

(** [open(path, "r", encoding="utf-8")] and [f.read()]. *)
Definition read (f : file) : result text :=
  match f with
  | Readable content => Ok content
  | Unreadable e => Raise e
  end.

Definition path_exists (a : assets_node) : bool :=
  match a with
  | NoAssets => false
  | AssetsDir _ | AssetsNotDir => true
  end.

Definition listdir (a : assets_node) : result (list text) :=
  match a with
  | AssetsDir entries => Ok (map fst entries)
  | NoAssets | AssetsNotDir => Raise OSError
  end.

Definition open_asset (a : assets_node) (name : text) : result text :=
  match a with
  | AssetsDir entries =>
      match find (fun e => text_eqb (fst e) name) entries with
      | Some (_, f) => read f
      | None => Raise OSError
      end
  | NoAssets | AssetsNotDir => Raise OSError
  end.

(** [st.secrets.get] with the empty string as default.  The default
    stands in for a name the store does not have: [Mapping.get] catches
    the [KeyError] of the lookup and nothing else, so the error the
    store raises when it has no secrets file to read comes through. *)
Definition secrets_get (s : secrets_store) (name : string) : result text :=
  match s with
  | NoSecretsFile => Raise SecretsNotFound
  | SecretsFile values => Ok (default [] (values !! name))
  end.

(** ** The script *)

Definition build_not_found : text :=
  txt "React build not found. If you are on Render, ensure the build command 'npm run build' completed successfully.".

Definition index_not_found : text :=
  txt "index.html not found in dist folder.".

(** The two patterns, as the f-strings put them together. *)
Definition css_pattern (css_file : text) : text :=
  txt "<link[^>]+href=" ++ [dquote] ++ txt "[^" ++ [dquote] ++ txt "]*"
  ++ re_escape css_file ++ [dquote] ++ txt "[^>]*>".

Definition js_pattern (js_file : text) : text :=
  txt "<script[^>]+src=" ++ [dquote] ++ txt "[^" ++ [dquote] ++ txt "]*"
  ++ re_escape js_file ++ [dquote] ++ txt "[^>]*>[\s\S]*?</script>".

Definition style_block (css_content : text) : text :=
  txt "<style>" ++ css_content ++ txt "</style>".

Definition module_script (js_content : text) : text :=
  txt "<script type=" ++ [dquote] ++ txt "module" ++ [dquote] ++ txt ">"
  ++ js_content ++ txt "</script>".

(** One round of the first loop: compile the pattern of [css_file] and
    substitute. *)
Definition inline_css (css_file css_content html_content : text) : result text :=
  match re_compile (css_pattern css_file) true with
  | Some pattern => Ok (re_sub pattern (style_block css_content) html_content)
  | None => Raise re_error
  end.

(** One round of the second loop. *)
Definition inline_js (js_file js_content html_content : text) : result text :=
  match re_compile (js_pattern js_file) true with
  | Some pattern => Ok (re_sub pattern (module_script js_content) html_content)
  | None => Raise re_error
  end.

(** [for name in files: content = read(name); html_content = step ...] *)
Fixpoint for_each (a : assets_node)
    (step : text -> text -> text -> result text)
    (files : list text) (html_content : text) : result text :=
  match files with
  | [] => Ok html_content
  | name :: files' =>
      content ← open_asset a name;
      html_content' ← step name content html_content;
      for_each a step files' html_content'
  end.

(** The block between ASSET INLINING START and END. *)
Definition inline_assets (a : assets_node) (html_content : text) : result text :=
  if path_exists a then
    names ← listdir a;
    let css_files := List.filter (fun f => endswith f (txt ".css")) names in
    html_content ← for_each a inline_css css_files html_content;
    names ← listdir a;
    let js_files := List.filter (fun f => endswith f (txt ".js")) names in
    for_each a inline_js js_files html_content
  else Ok html_content.

(** [os.environ.get(name) or st.secrets.get(name, default)]: an empty
    string is false for [or], and the store is consulted for an unset
    or empty variable only. *)
Definition get_key (w : world) (name : string) : result text :=
  match environ w !! name with
  | Some (c :: v) => Ok (c :: v)
  | Some [] | None => secrets_get (secrets w) name
  end.

Definition injection_script (deepseek_key gemini_key : text) : text :=
  [newline] ++
  txt "    <script>" ++ [newline] ++
  txt "        window.DEEPSEEK_API_KEY = " ++ [dquote] ++ deepseek_key
    ++ [dquote] ++ txt ";" ++ [newline] ++
  txt "        // Note: Gemini SDK usually reads process.env.API_KEY directly "
    ++ [newline] ++
  txt "        // if configured in your bundler (Vite), but we inject for safety."
    ++ [newline] ++
  txt "        window.API_KEY = " ++ [dquote] ++ gemini_key
    ++ [dquote] ++ txt ";" ++ [newline] ++
  txt "    </script>" ++ [newline] ++
  txt "    ".

Definition head_close : text := txt "</head>".

(** The block between KEY INJECTION START and END: the two lookups, in
    the order of the script, then the replacement. *)
Definition inject_keys (w : world) (html_content : text) : result text :=
  gemini_key ← get_key w "API_KEY";
  deepseek_key ← get_key w "DEEPSEEK_API_KEY";
  mret (str_replace html_content head_close
          (injection_script deepseek_key gemini_key ++ head_close)).

(** From reading [index.html] to the text handed to the component. *)
Definition assemble (w : world) (b : build) (index : file) : result text :=
  html_content ← read index;
  html_content ← inline_assets (assets b) html_content;
  inject_keys w html_content.

(** [load_react_app()]: the calls made to the host, and how the call
    ends. *)
Definition load_react_app (w : world) : list ui_call * completion :=
  match dist w with
  | None => ([st_error build_not_found], Returned)
  | Some b =>
      match index_html b with
      | None => ([st_error index_not_found], Returned)
      | Some index =>
          match assemble w b index with
          | Ok html_content =>
              ([st_components_html html_content 1000 true], Returned)
          | Raise e => ([], Raised e)
          end
      end
  end.

(** ** Notions the properties are stated with *)

(** [Pattern.search(s) is not None]: the pattern matches somewhere. *)
Fixpoint search_from (m : matcher) (s : text) : bool :=
  match m s with
  | Some _ => true
  | None =>
      match s with
      | [] => false
      | _ :: s' => search_from m s'
      end
  end.

Definition re_search (p : pattern) (s : text) : bool :=
  search_from (re_match p) s.

(** [u] is [pat] up to letter case. *)
Definition spells (pat u : text) : bool :=
  match strip same_ci pat u with
  | Some [] => true
  | _ => false
  end.

Definition has_char (c : N) (s : text) : bool := existsb (N.eqb c) s.

(** An ASCII character that is not a letter. *)
Definition is_symbol (g : N) : bool :=
  N.ltb g 128 && negb (is_ascii_upper g || is_ascii_lower g).

(** Where the lower-case mapping and the folding table lead: to a
    character from 128 on or to an ASCII lower-case letter. *)
Definition folded (c : N) : bool := N.leb 128 c || is_ascii_lower c.

(** A literal string as pattern pieces. *)
Definition lits (s : text) : regex := map (fun c => (Lit c, One)) s.

Definition not_char (c : N) : atom := CharSet true [SChar c].
Definition any_char : atom := CharSet false [SSpace; SNotSpace].

(** The pieces the two patterns are meant to have: the file name stands
    in them letter by letter. *)
Definition css_pieces (css_file : text) : regex :=
  lits (txt "<link") ++ [(not_char (ch ">"), Plus)] ++
  lits (txt "href=" ++ [dquote]) ++ [(not_char dquote, Star)] ++
  lits css_file ++ [(Lit dquote, One); (not_char (ch ">"), Star); (Lit (ch ">"), One)].

Definition js_pieces (js_file : text) : regex :=
  lits (txt "<script") ++ [(not_char (ch ">"), Plus)] ++
  lits (txt "src=" ++ [dquote]) ++ [(not_char dquote, Star)] ++
  lits js_file ++ [(Lit dquote, One); (not_char (ch ">"), Star); (Lit (ch ">"), One)] ++
  [(any_char, StarLazy)] ++ lits (txt "</script>").

(** How often a quantifier lets its atom be taken. *)
Definition reps_ok (q : quant) (n : nat) : bool :=
  match q with
  | One => n =? 1
  | Star | StarLazy => true
  | Plus | PlusLazy => 1 <=? n
  end.

(** The language of a pattern, without the engine: [matches ic re s r]
    when [s] is a word of [re] followed by [r]. *)
Inductive matches (ic : bool) : regex -> text -> text -> Prop :=
| matches_nil (s : text) : matches ic [] s s
| matches_cons (a : atom) (q : quant) (re : regex) (u v r : text) :
    forallb (atom_matches ic a) u = true ->
    reps_ok q (length u) = true ->
    matches ic re v r ->
    matches ic ((a, q) :: re) (u ++ v) r.

(** The least number of characters a match takes. *)
Fixpoint min_length (re : regex) : nat :=
  match re with
  | [] => 0
  | (_, q) :: re' =>
      match q with
      | One | Plus | PlusLazy => S (min_length re')
      | Star | StarLazy => min_length re'
      end
  end.

(** [re.compile(pat, re.IGNORECASE).search(html) is not None]. *)
Definition pattern_found (pat html : text) : bool :=
  match re_compile pat true with
  | Some p => re_search p html
  | None => false
  end.

(** The plainest tags that reference a file. *)
Definition plain_link (css_file : text) : text :=
  txt "<link href=" ++ [dquote] ++ css_file ++ [dquote] ++ txt ">".

Definition plain_script (js_file : text) : text :=
  txt "<script src=" ++ [dquote] ++ js_file ++ [dquote] ++ txt "></script>".

(** A tag in the shape the patterns admit, cut into its parts: the
    opening ([<link] or [<script]), what stands before the attribute,
    the attribute up to its opening quote ([href="] or [src="]), the
    path in front of the file name, the name, and what stands between
    the closing quote and [>]. *)
Definition tag_text (opening before attr path name after : text) : text :=
  opening ++ before ++ attr ++ path ++ name ++ [dquote] ++ after ++ [ch ">"].

(** [lit] occurs in [s] with no quote anywhere behind it: an attribute
    that is opened and whose value is not closed. *)
Fixpoint dangling (lit s : text) : bool :=
  match strip same_ci lit s with
  | Some r => negb (has_char dquote r)
  | None => false
  end
  || match s with
     | [] => false
     | _ :: s' => dangling lit s'
     end.

(** The parts are those of a tag that references [file]: opening,
    attribute and name are written as expected up to letter case, at
    least one character that is not [>] separates opening and attribute,
    the value (path and name) has no quote, and up to the closing [>]
    there is no other [>] and the attribute is not opened once more
    without a quote behind it. *)
Definition tag_parts_ok (open attr_lit file : text)
    (opening before attr path name after : text) : bool :=
  spells open opening &&
  negb (match before with [] => true | _ => false end) &&
  negb (has_char (ch ">") before) &&
  spells attr_lit attr &&
  negb (has_char dquote path) &&
  negb (has_char dquote name) &&
  spells file name &&
  negb (has_char (ch ">") after) &&
  negb (dangling attr_lit after).

Definition href_attr : text := txt "href=" ++ [dquote].
Definition src_attr : text := txt "src=" ++ [dquote].

(** [pat] and [a] agree as far as both go. *)
Fixpoint agrees (eqc : N -> N -> bool) (pat a : text) : bool :=
  match pat, a with
  | p :: pat', c :: a' => eqc p c && agrees eqc pat' a'
  | _, _ => true
  end.

(** No occurrence of [pat] can start inside [a], whatever follows [a]. *)
Fixpoint clear_of (eqc : N -> N -> bool) (pat a : text) : bool :=
  match a with
  | [] => true
  | _ :: a' => negb (agrees eqc pat a) && clear_of eqc pat a'
  end.

(** [b] starts with a character that [pat] has at most as its first. *)
Definition starts_apart (eqc : N -> N -> bool) (pat b : text) : bool :=
  match pat, b with
  | _ :: lit, g :: _ => forallb (fun c => negb (eqc c g)) lit
  | _, _ => false
  end.

(** The document after the replacement of line 69, for two given
    keys. *)
Definition with_script (deepseek_key gemini_key html_content : text) : text :=
  str_replace html_content head_close
    (injection_script deepseek_key gemini_key ++ head_close).

(** What the secrets store holds under a name; [None] when there is no
    store to ask. *)
Definition store_value (s : secrets_store) (name : string) : option (option text) :=
  match s with
  | NoSecretsFile => None
  | SecretsFile values => Some (values !! name)
  end.

(** ** Notions for the behaviour of the whole pass *)

Definition is_stylesheet (name : text) : bool := endswith name (txt ".css").
Definition is_script (name : text) : bool := endswith name (txt ".js").

(** The error of the first file of a sequence that cannot be read. *)
Fixpoint first_error (files : list file) : option exn :=
  match files with
  | [] => None
  | Readable _ :: files' => first_error files'
  | Unreadable e :: _ => Some e
  end.

(** The files the script opens, in the order it opens them: the entry
    page, the stylesheets as listed, the scripts as listed. *)
Definition files_opened (index : file) (entries : list (text * file)) : list file :=
  index
  :: map snd (List.filter (fun e => is_stylesheet (fst e)) entries)
  ++ map snd (List.filter (fun e => is_script (fst e)) entries).


(** A file that can be read. *)
Definition readable (f : file) : bool :=
  match f with
  | Readable _ => true
  | Unreadable _ => false
  end.

(** Every stylesheet and script of the directory can be read. *)
Definition assets_readable (entries : list (text * file)) : bool :=
  forallb (fun e => implb (is_stylesheet (fst e) || is_script (fst e))
                          (readable (snd e)))
          entries.

(** [tag] is a link tag that references [css_file], in the shape the
    first pattern admits. *)
Definition link_tag_for (css_file tag : text) : Prop :=
  exists opening before attr path name after,
    tag = tag_text opening before attr path name after /\
    tag_parts_ok (txt "<link") href_attr css_file
      opening before attr path name after = true.

(** A document made of stretches of text, each followed by a tag, and a
    last stretch; and the same document with [block] for every tag. *)
Definition with_tags (parts : list (text * text)) (last : text) : text :=
  concat (map (fun p => fst p ++ snd p) parts) ++ last.

Definition with_blocks (block : text) (parts : list (text * text)) (last : text)
  : text :=
  concat (map (fun p => fst p ++ block) parts) ++ last.

(** [str.count(old)] for a non-empty [old]: the occurrences that
    [str.replace] finds. *)
Fixpoint count_from (old : text) (skip : nat) (s : text) : nat :=
  match s with
  | [] => 0
  | _ :: s' =>
      match skip with
      | S k => count_from old k s'
      | O =>
          if startswith same old s
          then S (count_from old (length old - 1) s')
          else count_from old 0 s'
      end
  end.

Definition str_count (s old : text) : nat := count_from old 0 s.

(** No name comes twice in the list. *)
Fixpoint distinct (names : list text) : bool :=
  match names with
  | [] => true
  | n :: names' => negb (existsb (text_eqb n) names') && distinct names'
  end.

(** *** A page as a sequence of texts and tags *)























(** ** Sample inputs *)

Definition quoted (s : text) : text := [dquote] ++ s ++ [dquote].

(** A secrets file without values. *)
Definition empty_store : secrets_store := SecretsFile ∅.

(** No variable in the environment; the store has a secrets file
    without the two keys. *)
Definition no_keys (d : option build) : world :=
  {| dist := d; environ := ∅; secrets := empty_store |}.

(** No variable in the environment and no secrets file. *)
Definition no_secrets (d : option build) : world :=
  {| dist := d; environ := ∅; secrets := NoSecretsFile |}.

(** The environment of the spec's example: [API_KEY] is [abc],
    [DEEPSEEK_API_KEY] is empty. *)
Definition abc_environ : gmap string text :=
  {[ "API_KEY"%string := txt "abc"; "DEEPSEEK_API_KEY"%string := [] ]}.

Definition abc_keys (s : secrets_store) (d : option build) : world :=
  {| dist := d; environ := abc_environ; secrets := s |}.

Definition bare_page : text := txt "<html><head></head><body></body></html>".

Definition bare_build : build :=
  {| index_html := Some (Readable bare_page); assets := NoAssets |}.

(** An entry page without a closing head tag, with one stylesheet whose
    text has one. *)
Definition headless_page : text :=
  txt "<html><link rel=" ++ quoted (txt "stylesheet")
  ++ txt " href=" ++ quoted (txt "/assets/app.css")
  ++ txt "><body></body></html>".

Definition headless_build : build :=
  {| index_html := Some (Readable headless_page);
     assets := AssetsDir [(txt "app.css", Readable (txt "/* </head> */"))] |}.

(** The spec's minimal page: one stylesheet link, to [app.css]. *)
Definition app_css_link : text :=
  txt "<link rel=" ++ quoted (txt "stylesheet")
  ++ txt " href=" ++ quoted (txt "/assets/app.css") ++ txt ">".



Definition closing_part : text := txt "</head><body></body></html>".


(** A link tag in capitals, with attributes on both sides of [HREF]. *)
Definition capital_link : text :=
  tag_text (txt "<LINK")
    (txt " REL=" ++ quoted (txt "stylesheet") ++ txt " ")
    (txt "HREF=" ++ [dquote]) (txt "/assets/") (txt "App.CSS")
    (txt " crossorigin").

(** A link tag whose attribute value is in single quotes. *)
Definition single_quoted_link : text :=
  txt "<html><head><link rel='stylesheet' href='/assets/app.css'></head></html>".

(** A page with one stylesheet link and one module script. *)
Definition app_js_script : text :=
  txt "<script type=" ++ quoted (txt "module")
  ++ txt " crossorigin src=" ++ quoted (txt "/assets/app.js")
  ++ txt "></script>".

Definition full_page : text :=
  txt "<html><head>" ++ app_css_link ++ app_js_script ++ closing_part.

Definition mixed_entries : list (text * file) :=
  [(txt "app.js", Readable (txt "main()"));
   (txt "app.css.map", Unreadable OSError);
   (txt "app.css", Unreadable UnicodeDecodeError)].

Definition other_entries : list (text * file) :=
  [(txt "readme.txt", Unreadable OSError);
   (txt "APP.CSS", Readable (txt "body{}"))].

Definition longer_link : text :=
  tag_text (txt "<link") (txt " ") href_attr (txt "/assets/") (txt "myapp.css") [].

Definition both_keys : gmap string text :=
  {[ "API_KEY"%string := txt "abc"; "DEEPSEEK_API_KEY"%string := txt "xyz" ]}.

(** The script block for the keys of the spec's example, letter by
    letter. *)
Definition abc_script : text :=
  [newline] ++ txt "    <script>" ++ [newline]
  ++ txt "        window.DEEPSEEK_API_KEY = " ++ quoted [] ++ txt ";" ++ [newline]
  ++ txt "        // Note: Gemini SDK usually reads process.env.API_KEY directly "
  ++ [newline]
  ++ txt "        // if configured in your bundler (Vite), but we inject for safety."
  ++ [newline]
  ++ txt "        window.API_KEY = " ++ quoted (txt "abc") ++ txt ";" ++ [newline]
  ++ txt "    </script>" ++ [newline] ++ txt "    ".








(** * Properties *)

(** ** Prefixes and occurrences *)

Section Strip.
Variable eqc : N -> N -> bool.

Lemma strip_app (pat u r s : text) :
  strip eqc pat u = Some r -> strip eqc pat (u ++ s) = Some (r ++ s).
Proof.
  revert u. induction pat as [|p pat IH]; intros u H; simpl in *.
  - now inversion H.
  - destruct u as [|c u]; [discriminate|]. simpl.
    destruct (eqc p c); [auto|discriminate].
Qed.

Lemma strip_length (pat s r : text) :
  strip eqc pat s = Some r -> length s = length pat + length r.
Proof.
  revert s. induction pat as [|p pat IH]; intros s H; simpl in *.
  - now inversion H.
  - destruct s as [|c s]; [discriminate|].
    destruct (eqc p c); [|discriminate]. simpl. now rewrite (IH s H).
Qed.

Lemma strip_refl (pat s : text) :
  (forall c, eqc c c = true) -> strip eqc pat (pat ++ s) = Some s.
Proof.
  intros Hr. induction pat as [|p pat IH]; simpl; [reflexivity|].
  now rewrite Hr.
Qed.

(** A prefix match cannot reach over a character that no character of
    the pattern agrees with. *)
Lemma strip_blocked (lit u t r : text) (g : N) :
  (forall c, In c lit -> eqc c g = false) ->
  strip eqc lit (u ++ g :: t) = Some r ->
  exists r', strip eqc lit u = Some r'.
Proof.
  revert u. induction lit as [|l lit IH]; intros u Hg H; simpl in *.
  - eauto.
  - destruct u as [|c u]; simpl in *.
    + rewrite (Hg l) in H by auto. discriminate.
    + destruct (eqc l c); [|discriminate]. apply IH; auto.
Qed.

(** When the first character of the pattern is unlike all its others,
    a match that starts before an occurrence ends before it. *)
Lemma strip_before_occurrence (l0 g : N) (lit y t r : text) :
  (forall c, In c lit -> eqc c g = false) ->
  y <> [] ->
  strip eqc (l0 :: lit) (y ++ g :: t) = Some r ->
  exists r', strip eqc (l0 :: lit) y = Some r'.
Proof.
  intros Hg Hy H. destruct y as [|c y]; [congruence|]. simpl in *.
  destruct (eqc l0 c); [|discriminate].
  eapply strip_blocked; eauto.
Qed.

Lemma startswith_app (pat u s : text) :
  startswith eqc pat u = true -> startswith eqc pat (u ++ s) = true.
Proof.
  unfold startswith. destruct (strip eqc pat u) as [r|] eqn:E; [|discriminate].
  now rewrite (strip_app _ _ _ s E).
Qed.

Lemma occurs_here (pat s : text) :
  startswith eqc pat s = true -> occurs eqc pat s = true.
Proof.
  intros H. destruct s; simpl; rewrite H; reflexivity.
Qed.

Lemma occurs_cons (pat s : text) (c : N) :
  occurs eqc pat s = true -> occurs eqc pat (c :: s) = true.
Proof.
  intros H. simpl. rewrite H. apply orb_true_r.
Qed.

Lemma occurs_app_r (pat u v : text) :
  occurs eqc pat v = true -> occurs eqc pat (u ++ v) = true.
Proof.
  intros H. induction u as [|c u IH]; [exact H|].
  simpl app. now apply occurs_cons.
Qed.

Lemma occurs_app_l (pat u v : text) :
  occurs eqc pat u = true -> occurs eqc pat (u ++ v) = true.
Proof.
  induction u as [|c u IH]; simpl; intros H.
  - rewrite orb_false_r in H.
    apply occurs_here. now apply (startswith_app pat [] v).
  - apply orb_true_iff in H as [H|H].
    + pose proof (startswith_app pat (c :: u) v H) as H'.
      simpl app in H'. rewrite H'. reflexivity.
    + rewrite (IH H). apply orb_true_r.
Qed.

(** Without an occurrence no suffix starts with the pattern. *)
Lemma occurs_false_suffix (pat x y : text) :
  occurs eqc pat (x ++ y) = false -> startswith eqc pat y = false.
Proof.
  intros H. destruct (startswith eqc pat y) eqn:E; [|reflexivity].
  rewrite (occurs_app_r pat x y (occurs_here _ _ E)) in H. discriminate.
Qed.

Lemma startswith_true (pat s : text) :
  startswith eqc pat s = true <-> exists r, strip eqc pat s = Some r.
Proof.
  unfold startswith. destruct (strip eqc pat s) as [r|].
  - split; eauto.
  - split; [discriminate|]. intros [r H]. discriminate H.
Qed.
End Strip.

(** ** [str.replace] *)

Section Replace.
Variable o0 : N.
Variable old' new : text.
Let old := o0 :: old'.

(** The searched text does not overlap itself: its first character
    does not come again. *)
Hypothesis no_overlap : forall c, In c old' -> same c o0 = false.

Lemma replace_from_skip (x v : text) :
  replace_from old new (length x) (x ++ v) = replace_from old new 0 v.
Proof.
  induction x as [|c x IH]; simpl; [|exact IH].
  destruct v; reflexivity.
Qed.

Lemma replace_from_app (u v : text) (skip : nat) :
  skip <= length u ->
  replace_from old new skip (u ++ old ++ v) =
  replace_from old new skip u ++ new ++ replace_from old new 0 v.
Proof.
  revert skip. induction u as [|c u IH]; intros skip Hs.
  - assert (skip = 0) as -> by (simpl in Hs; lia).
    change ([] ++ old ++ v) with (o0 :: old' ++ v).
    cbn [replace_from app].
    assert (Hst : startswith same old (o0 :: old' ++ v) = true).
    { apply startswith_true. exists v.
      apply (strip_refl same old v). intros c. apply N.eqb_refl. }
    rewrite Hst.
    replace (length old - 1) with (length old') by (simpl; lia).
    now rewrite replace_from_skip.
  - destruct skip as [|k]; cbn [replace_from app].
    + destruct (startswith same old (c :: u)) eqn:E.
      * pose proof (startswith_app same old (c :: u) (old ++ v) E) as E'.
        cbn [app] in E'. rewrite E'.
        rewrite IH; [now rewrite <- app_assoc|].
        apply startswith_true in E as [r E].
        apply strip_length in E. simpl in *. lia.
      * destruct (startswith same old (c :: u ++ old ++ v)) eqn:E'.
        -- apply startswith_true in E' as [r E'].
           apply (strip_before_occurrence same o0 o0 old' (c :: u) (old' ++ v) r)
             in E'; [|exact no_overlap|discriminate].
           apply startswith_true in E'. unfold old in E.
           rewrite E' in E. discriminate E.
        -- now rewrite IH by lia.
    + apply IH. simpl in Hs. lia.
Qed.

Lemma replace_from_absent (s : text) :
  occurs same old s = false -> replace_from old new 0 s = s.
Proof.
  induction s as [|c s IH]; intros H; [reflexivity|].
  cbn [occurs] in H. apply orb_false_iff in H as [H1 H2].
  cbn [replace_from]. rewrite H1. now rewrite IH.
Qed.
End Replace.

Lemma head_close_no_overlap (c : N) :
  In c (txt "/head>") -> same c (ch "<") = false.
Proof.
  simpl. intros H.
  repeat (destruct H as [<-|H]; [reflexivity|]). destruct H.
Qed.

(** ** Key injection *)

(** The script goes in front of an occurrence of [</head>] wherever it
    stands, and what is on either side is treated on its own. *)
Lemma with_script_app (dk gk u v : text) :
  with_script dk gk (u ++ head_close ++ v) =
  with_script dk gk u
    ++ (injection_script dk gk ++ head_close)
    ++ with_script dk gk v.
Proof.
  unfold with_script, str_replace.
  change head_close with (ch "<" :: txt "/head>").
  apply (replace_from_app (ch "<") (txt "/head>") _ head_close_no_overlap u v 0).
  lia.
Qed.

Lemma with_script_absent (dk gk doc : text) :
  occurs same head_close doc = false -> with_script dk gk doc = doc.
Proof.
  intros H. unfold with_script, str_replace.
  change head_close with (ch "<" :: txt "/head>") in *.
  now apply replace_from_absent.
Qed.

Lemma inject_keys_ok (w : world) (gk dk html_content : text) :
  get_key w "API_KEY" = Ok gk ->
  get_key w "DEEPSEEK_API_KEY" = Ok dk ->
  inject_keys w html_content = Ok (with_script dk gk html_content).
Proof. intros Hg Hd. unfold inject_keys. rewrite Hg, Hd. reflexivity. Qed.

(** ** The checks and the rendering call *)

Lemma load_react_app_past_checks (w : world) (b : build) (index : file) :
  dist w = Some b -> index_html b = Some index ->
  load_react_app w =
    match assemble w b index with
    | Ok html_content => ([st_components_html html_content 1000 true], Returned)
    | Raise e => ([], Raised e)
    end.
Proof.
  intros Hd Hi. unfold load_react_app. now rewrite Hd, Hi.
Qed.

Lemma assemble_inlined (w : world) (b : build) (index : file) (doc : text) :
  read index ≫= inline_assets (assets b) = Ok doc ->
  assemble w b index = inject_keys w doc.
Proof.
  intros Hdoc. unfold assemble.
  destruct (read index) as [html|e]; simpl in *; [|discriminate].
  now rewrite Hdoc.
Qed.

(** What is rendered is the inlined document with the keys injected. *)
Lemma load_react_app_renders
    (w : world) (b : build) (index : file) (doc gk dk : text) :
  dist w = Some b -> index_html b = Some index ->
  read index ≫= inline_assets (assets b) = Ok doc ->
  get_key w "API_KEY" = Ok gk ->
  get_key w "DEEPSEEK_API_KEY" = Ok dk ->
  load_react_app w = ([st_components_html (with_script dk gk doc) 1000 true], Returned).
Proof.
  intros Hd Hi Hdoc Hg Hk.
  rewrite (load_react_app_past_checks w b index Hd Hi).
  rewrite (assemble_inlined w b index doc Hdoc).
  now rewrite (inject_keys_ok w gk dk doc Hg Hk).
Qed.

(** ** [re.escape] and [re.compile] *)

Lemma existsb_eqb_false (c : N) (l : text) (x : N) :
  existsb (N.eqb c) l = false -> In x l -> N.eqb c x = false.
Proof.
  intros H Hx. destruct (N.eqb c x) eqn:E; [|reflexivity].
  rewrite (proj2 (existsb_exists (N.eqb c) l)) in H; [discriminate|eauto].
Qed.

(** An escaped character is never a letter or a digit, so the backslash
    in front of it makes no class or group reference. *)
Lemma special_not_alnum (c : N) : is_special c = true -> is_alnum c = false.
Proof.
  unfold is_special. intros H.
  apply existsb_exists in H as (x & Hx & Hc). apply N.eqb_eq in Hc. subst x.
  simpl in Hx. repeat (destruct Hx as [<-|Hx]; [reflexivity|]). destruct Hx.
Qed.

(** A character [re.escape] leaves alone stands for itself. *)
Lemma pstep_plain (c : N) (acc : regex) :
  is_special c = false -> pstep PTop acc c = Some (PTop, (Lit c, One) :: acc).
Proof.
  unfold is_special. intros H.
  assert (Hx : forall x, In x special_chars -> N.eqb c x = false)
    by (intros x; apply existsb_eqb_false; exact H).
  unfold pstep, is_repeat_sign, is_unsupported, backslash.
  cbn [txt list_ascii_of_string map existsb].
  rewrite !Hx by (vm_compute; tauto). reflexivity.
Qed.

Lemma pstep_escaped (c : N) (acc : regex) :
  is_special c = true ->
  parse PTop acc [backslash; c] = Some ((Lit c, One) :: acc).
Proof.
  intros H. cbn. now rewrite (special_not_alnum c H).
Qed.

(** The parser reads an escaped name as the pieces [lits name]. *)
Lemma parse_escape (name rest : text) (acc : regex) :
  parse PTop acc (re_escape name ++ rest) =
  parse PTop (rev (lits name) ++ acc) rest.
Proof.
  revert acc. induction name as [|c name IH]; intros acc; [reflexivity|].
  unfold re_escape in *. cbn [flat_map].
  replace (rev (lits (c :: name)) ++ acc)
    with (rev (lits name) ++ (Lit c, One) :: acc)
    by (cbn [lits map rev]; now rewrite <- app_assoc).
  destruct (is_special c) eqn:E.
  - cbn [app parse]. change (pstep PTop acc backslash) with (Some (PEsc, acc)).
    cbn [pstep]. rewrite (special_not_alnum c E). apply IH.
  - cbn [app parse]. rewrite (pstep_plain c acc E). apply IH.
Qed.

Lemma css_pattern_compiles (css_file : text) :
  re_compile (css_pattern css_file) true =
  Some {| ignorecase := true; pieces := css_pieces css_file |}.
Proof.
  unfold re_compile, css_pattern.
  match goal with
  | |- context [parse PTop [] (?a ++ ?b ++ ?c ++ ?d ++ ?e ++ re_escape ?n ++ ?r)] =>
      change (parse PTop [] (a ++ b ++ c ++ d ++ e ++ re_escape n ++ r))
        with (parse PTop (rev (lits (txt "<link") ++ [(not_char (ch ">"), Plus)] ++
                               lits (txt "href=" ++ [dquote]) ++
                               [(not_char dquote, Star)]))
                (re_escape n ++ r))
  end.
  rewrite parse_escape.
  match goal with
  | |- context [parse PTop ?acc ?r] =>
      change (parse PTop acc r)
        with (Some (rev [(Lit dquote, One); (not_char (ch ">"), Star); (Lit (ch ">"), One)]
                      ++ acc))
  end.
  unfold css_pieces. f_equal. f_equal.
  rewrite !rev_app_distr, !rev_involutive, <- !app_assoc. reflexivity.
Qed.

Lemma js_pattern_compiles (js_file : text) :
  re_compile (js_pattern js_file) true =
  Some {| ignorecase := true; pieces := js_pieces js_file |}.
Proof.
  unfold re_compile, js_pattern.
  match goal with
  | |- context [parse PTop [] (?a ++ ?b ++ ?c ++ ?d ++ ?e ++ re_escape ?n ++ ?r)] =>
      change (parse PTop [] (a ++ b ++ c ++ d ++ e ++ re_escape n ++ r))
        with (parse PTop (rev (lits (txt "<script") ++ [(not_char (ch ">"), Plus)] ++
                               lits (txt "src=" ++ [dquote]) ++
                               [(not_char dquote, Star)]))
                (re_escape n ++ r))
  end.
  rewrite parse_escape.
  match goal with
  | |- context [parse PTop ?acc ?r] =>
      change (parse PTop acc r)
        with (Some (rev ([(Lit dquote, One); (not_char (ch ">"), Star); (Lit (ch ">"), One)]
                           ++ [(any_char, StarLazy)] ++ lits (txt "</script>"))
                      ++ acc))
  end.
  unfold js_pieces. f_equal. f_equal.
  rewrite !rev_app_distr, !rev_involutive, <- !app_assoc. reflexivity.
Qed.
(** ** The backtracking engine *)

Section Engine.
Variable P : N -> bool.
Variable k : matcher.

Lemma lazy_unfold (s : text) :
  lazy P k s =
  match k s with
  | Some r => Some r
  | None =>
      match s with
      | c :: s' => if P c then lazy P k s' else None
      | [] => None
      end
  end.
Proof. destruct s; reflexivity. Qed.

(** A greedy repetition fails when the continuation fails after every
    run of admitted characters. *)
Lemma greedy_none (s : text) :
  (forall x y, s = x ++ y -> forallb P x = true -> k y = None) ->
  greedy P k s = None.
Proof.
  induction s as [|c s IH]; intros H; simpl.
  - apply (H [] []); reflexivity.
  - destruct (P c) eqn:Pc.
    + rewrite IH.
      * apply (H [] (c :: s)); reflexivity.
      * intros x y -> Hx. apply (H (c :: x) y); [reflexivity|].
        simpl. now rewrite Pc.
    + apply (H [] (c :: s)); reflexivity.
Qed.

(** The engine settles for the run [u] when the continuation accepts
    after it and after no longer run. *)
Lemma greedy_first (u v r : text) :
  forallb P u = true ->
  k v = Some r ->
  (forall x y, v = x ++ y -> x <> [] -> forallb P x = true -> k y = None) ->
  greedy P k (u ++ v) = Some r.
Proof.
  intros Hu Hk Hlonger. induction u as [|c u IH]; simpl in *.
  - destruct v as [|c v]; simpl; [exact Hk|].
    destruct (P c) eqn:Pc; [|exact Hk].
    rewrite greedy_none; [exact Hk|].
    intros x y -> Hx. apply (Hlonger (c :: x) y); [reflexivity|discriminate|].
    simpl. now rewrite Pc.
  - apply andb_true_iff in Hu as [Pc Hu]. rewrite Pc. now rewrite IH.
Qed.

(** A lazy repetition stops at the first place where the continuation
    accepts. *)
Lemma lazy_first (u v r : text) :
  forallb P u = true ->
  k v = Some r ->
  (forall x y, u = x ++ y -> y <> [] -> k (y ++ v) = None) ->
  lazy P k (u ++ v) = Some r.
Proof.
  intros Hu Hk Hshorter. induction u as [|c u IH].
  - simpl. rewrite lazy_unfold. now rewrite Hk.
  - simpl in Hu. apply andb_true_iff in Hu as [Pc Hu].
    rewrite lazy_unfold.
    rewrite (Hshorter [] (c :: u)); [|reflexivity|discriminate].
    simpl. rewrite Pc. apply IH; [exact Hu|].
    intros x y -> Hy. apply (Hshorter (c :: x) y); [reflexivity|exact Hy].
Qed.

Lemma greedy_complete (u v r : text) :
  forallb P u = true -> k v = Some r ->
  exists r', greedy P k (u ++ v) = Some r'.
Proof.
  intros Hu Hk. induction u as [|c u IH]; simpl in *.
  - destruct v as [|c v]; simpl; [eauto|].
    destruct (P c); [|eauto]. destruct (greedy P k v); eauto.
  - apply andb_true_iff in Hu as [Pc Hu]. rewrite Pc.
    destruct (IH Hu) as [r' ->]. eauto.
Qed.

Lemma lazy_complete (u v r : text) :
  forallb P u = true -> k v = Some r ->
  exists r', lazy P k (u ++ v) = Some r'.
Proof.
  intros Hu Hk. induction u as [|c u IH]; simpl in Hu.
  - simpl. rewrite lazy_unfold, Hk. eauto.
  - apply andb_true_iff in Hu as [Pc Hu]. rewrite lazy_unfold.
    destruct (k ((c :: u) ++ v)); [eauto|]. simpl. rewrite Pc. exact (IH Hu).
Qed.

Lemma greedy_sound (s r : text) :
  greedy P k s = Some r ->
  exists u v, s = u ++ v /\ forallb P u = true /\ k v = Some r.
Proof.
  induction s as [|c s IH]; simpl; intros H.
  - exists [], []. auto.
  - destruct (P c) eqn:Pc.
    + destruct (greedy P k s) as [r'|] eqn:E.
      * destruct (IH H) as (u & v & -> & Hu & Hk).
        exists (c :: u), v. simpl. rewrite Pc, Hu. auto.
      * exists [], (c :: s). auto.
    + exists [], (c :: s). auto.
Qed.

Lemma lazy_sound (s r : text) :
  lazy P k s = Some r ->
  exists u v, s = u ++ v /\ forallb P u = true /\ k v = Some r.
Proof.
  induction s as [|c s IH]; rewrite lazy_unfold; intros H.
  - destruct (k []) eqn:E; [|discriminate].
    exists [], []. repeat split. congruence.
  - destruct (k (c :: s)) eqn:E.
    + exists [], (c :: s). repeat split. congruence.
    + destruct (P c) eqn:Pc; [|discriminate].
      destruct (IH H) as (u & v & -> & Hu & Hk).
      exists (c :: u), v. simpl. rewrite Pc, Hu. auto.
Qed.
End Engine.

(** Literal pieces are matched as a prefix. *)
Lemma run_lits (ic : bool) (l : text) (re : regex) (s : text) :
  run ic (lits l ++ re) s =
  match strip (char_eq ic) l s with
  | Some s' => run ic re s'
  | None => None
  end.
Proof.
  revert s. induction l as [|c l IH]; intros s; [reflexivity|].
  destruct s as [|d s]; [reflexivity|].
  cbn [lits map app run once atom_matches strip].
  destruct (char_eq ic c d); [apply IH|reflexivity].
Qed.

(** *** The engine against the language of the pattern *)

Lemma run_complete (ic : bool) (re : regex) (s r : text) :
  matches ic re s r -> exists r', run ic re s = Some r'.
Proof.
  induction 1 as [s|a q re u v r Hu Hq _ [r' IH]]; [simpl; eauto|].
  cbn [run].
  destruct q; simpl in Hq.
  - destruct u as [|c [|? ?]]; try discriminate Hq.
    simpl in *. rewrite andb_true_r in Hu. rewrite Hu. eauto.
  - eapply greedy_complete; eauto.
  - destruct u as [|c u]; [discriminate Hq|].
    simpl in *. apply andb_true_iff in Hu as [Pc Hu]. rewrite Pc.
    eapply greedy_complete; eauto.
  - eapply lazy_complete; eauto.
  - destruct u as [|c u]; [discriminate Hq|].
    simpl in *. apply andb_true_iff in Hu as [Pc Hu]. rewrite Pc.
    eapply lazy_complete; eauto.
Qed.

Lemma run_sound (ic : bool) (re : regex) (s r : text) :
  run ic re s = Some r -> matches ic re s r.
Proof.
  revert s. induction re as [|[a q] re IH]; intros s H; cbn [run] in H.
  - inversion H. constructor.
  - destruct q.
    + destruct s as [|c s]; [discriminate|]. simpl in H.
      destruct (atom_matches ic a c) eqn:Pc; [|discriminate].
      apply (matches_cons ic a One re [c] s r); simpl; auto.
      now rewrite Pc.
    + apply greedy_sound in H as (u & v & -> & Hu & Hk).
      apply matches_cons; auto.
    + destruct s as [|c s]; [discriminate|]. simpl in H.
      destruct (atom_matches ic a c) eqn:Pc; [|discriminate].
      apply greedy_sound in H as (u & v & -> & Hu & Hk).
      apply (matches_cons ic a Plus re (c :: u) v r); simpl; auto.
      now rewrite Pc.
    + apply lazy_sound in H as (u & v & -> & Hu & Hk).
      apply matches_cons; auto.
    + destruct s as [|c s]; [discriminate|]. simpl in H.
      destruct (atom_matches ic a c) eqn:Pc; [|discriminate].
      apply lazy_sound in H as (u & v & -> & Hu & Hk).
      apply (matches_cons ic a PlusLazy re (c :: u) v r); simpl; auto.
      now rewrite Pc.
Qed.

(** A match takes at least [min_length] characters off the front. *)
Lemma matches_length (ic : bool) (re : regex) (s r : text) :
  matches ic re s r ->
  exists m, s = m ++ r /\ min_length re <= length m.
Proof.
  induction 1 as [s|a q re u v r Hu Hq _ (m & -> & Hm)].
  - exists []. simpl. auto.
  - exists (u ++ m). rewrite <- app_assoc. split; [reflexivity|].
    rewrite length_app. destruct q; cbn [reps_ok min_length] in *;
      try (apply Nat.eqb_eq in Hq); try (apply Nat.leb_le in Hq); lia.
Qed.

(** ** [Pattern.sub] *)

Section Sub.
Variable m : matcher.
Variable repl : text.

Lemma sub_from_skip (x v : text) :
  sub_from m repl (length x) (x ++ v) = sub_from m repl 0 v.
Proof.
  induction x as [|c x IH]; [reflexivity|exact IH].
Qed.

(** A match at the current position is replaced and the scan goes on
    behind it. *)
Lemma sub_from_match (tag post : text) :
  tag <> [] ->
  m (tag ++ post) = Some post ->
  sub_from m repl 0 (tag ++ post) = repl ++ sub_from m repl 0 post.
Proof.
  intros Ht Hm. destruct tag as [|c tag]; [congruence|].
  cbn [app sub_from]. cbn [app] in Hm. rewrite Hm.
  replace (length (c :: tag ++ post) - length post) with (S (length tag))
    by (simpl; rewrite length_app; lia).
  now rewrite sub_from_skip.
Qed.

(** Text in which no match starts is copied. *)
Lemma sub_from_frame (pre rest : text) :
  (forall x y, pre = x ++ y -> y <> [] -> m (y ++ rest) = None) ->
  sub_from m repl 0 (pre ++ rest) = pre ++ sub_from m repl 0 rest.
Proof.
  induction pre as [|c pre IH]; intros H; [reflexivity|].
  pose proof (H [] (c :: pre) eq_refl ltac:(discriminate)) as Hc.
  cbn [app] in Hc. cbn [app sub_from]. rewrite Hc.
  f_equal. apply IH. intros x y -> Hy.
  apply (H (c :: x) y); [reflexivity|exact Hy].
Qed.

Lemma sub_from_absent (s : text) :
  search_from m s = false -> sub_from m repl 0 s = s.
Proof.
  induction s as [|c s IH]; simpl; intros H.
  - destruct (m []); [discriminate|reflexivity].
  - destruct (m (c :: s)); [discriminate|]. now rewrite IH.
Qed.
End Sub.
(** ** References the pattern does not match *)

Lemma inline_css_absent (name content html_content : text) :
  pattern_found (css_pattern name) html_content = false ->
  inline_css name content html_content = Ok html_content.
Proof.
  unfold pattern_found, inline_css. rewrite css_pattern_compiles.
  intros H. f_equal. apply sub_from_absent. exact H.
Qed.

(** C6.  When the pattern built for an asset matches nowhere in the
    document, its substitution step returns the document as it was: the
    tag that refers to the asset in another way stays, nothing is
    raised and nothing is reported.  The same holds for a stylesheet
    and for a script. *)
Theorem unmatched_reference_left_alone (name content html_content : text) :
  (pattern_found (css_pattern name) html_content = false ->
   inline_css name content html_content = Ok html_content) /\
  (pattern_found (js_pattern name) html_content = false ->
   inline_js name content html_content = Ok html_content).
Proof.
  split; [apply inline_css_absent|].
  unfold pattern_found, inline_js. rewrite js_pattern_compiles.
  intros H. f_equal. apply sub_from_absent. exact H.
Qed.

(** ** Letter case *)

Lemma assoc_in {A : Type} (c : N) (table : list (N * A)) (v : A) :
  assoc c table = Some v -> In (c, v) table.
Proof.
  induction table as [|[k x] table IH]; simpl; [discriminate|].
  destruct (N.eqb c k) eqn:E.
  - apply N.eqb_eq in E. subst k. intros H. inversion H. auto.
  - auto.
Qed.

Lemma lower_table_folded :
  forallb (fun e => folded (snd e)) lower_table = true.
Proof. vm_compute. reflexivity. Qed.

Lemma fix_table_folded :
  forallb (fun e => forallb folded (snd e)) fix_table = true.
Proof. vm_compute. reflexivity. Qed.


Lemma tolower_folded (p : N) : iscased p = true -> folded (tolower p) = true.
Proof.
  unfold iscased, tolower, folded, is_ascii_upper, is_ascii_lower.
  destruct (N.ltb p 128) eqn:Ep.
  - destruct (N.leb 65 p && N.leb p 90) eqn:Eu.
    + intros _. apply andb_true_iff in Eu as [H1 H2].
      apply N.leb_le in H1, H2. apply orb_true_iff. right.
      apply andb_true_iff. split; apply N.leb_le; lia.
    + cbn [orb]. intros H. rewrite H. apply orb_true_r.
  - apply N.ltb_ge in Ep.
    destruct (assoc p lower_table) as [l|] eqn:E; cbn [default].
    + intros _. apply assoc_in in E.
      pose proof (proj1 (forallb_forall _ _) lower_table_folded _ E) as H.
      exact H.
    + intros _. apply orb_true_iff. left. now apply N.leb_le.
Qed.

Lemma fixes_folded (lo x : N) : In x (fixes lo) -> folded x = true.
Proof.
  unfold fixes. destruct (assoc lo fix_table) as [l|] eqn:E; cbn [default].
  - intros Hx. apply assoc_in in E.
    pose proof (proj1 (forallb_forall _ _) fix_table_folded _ E) as H.
    cbn [snd] in H. exact (proj1 (forallb_forall _ _) H x Hx).
  - intros [].
Qed.

Lemma symbol_not_folded (g : N) : is_symbol g = true -> folded g = false.
Proof.
  unfold is_symbol, folded. intros H.
  apply andb_true_iff in H as [H1 H2]. apply negb_true_iff in H2.
  apply orb_false_iff in H2 as [_ H2]. rewrite H2, orb_false_r.
  apply N.ltb_lt in H1. apply N.leb_gt. exact H1.
Qed.

Lemma symbol_not_cased (g : N) : is_symbol g = true -> iscased g = false.
Proof.
  unfold is_symbol, iscased. intros H.
  apply andb_true_iff in H as [H1 H2]. rewrite H1.
  now apply negb_true_iff in H2.
Qed.

Lemma symbol_tolower (g : N) : is_symbol g = true -> tolower g = g.
Proof.
  unfold is_symbol, tolower. intros H.
  apply andb_true_iff in H as [H1 H2]. rewrite H1.
  apply negb_true_iff, orb_false_iff in H2 as [H2 _]. now rewrite H2.
Qed.

(** A symbol in a pattern is compared exactly. *)
Lemma symbol_exact (g c : N) : is_symbol g = true -> same_ci g c = N.eqb g c.
Proof.
  intros H. unfold same_ci. rewrite (symbol_not_cased g H). apply N.eqb_sym.
Qed.

(** A symbol in the subject is read by that symbol only. *)
Lemma symbol_only_itself (p g : N) :
  is_symbol g = true -> same_ci p g = true -> p = g.
Proof.
  intros Hg. unfold same_ci. destruct (iscased p) eqn:Ep.
  - rewrite (symbol_tolower g Hg). intros H. exfalso.
    pose proof (symbol_not_folded g Hg) as Hn.
    apply orb_true_iff in H as [H|H].
    + apply N.eqb_eq in H. rewrite H, (tolower_folded p Ep) in Hn. discriminate.
    + apply existsb_exists in H as (x & Hx & H). apply N.eqb_eq in H. subst x.
      rewrite (fixes_folded _ _ Hx) in Hn. discriminate.
  - intros H. apply N.eqb_eq in H. now subst.
Qed.

Lemma same_ci_refl (c : N) : same_ci c c = true.
Proof.
  unfold same_ci. destruct (iscased c); rewrite N.eqb_refl; reflexivity.
Qed.

Lemma same_ci_gt (c : N) : same_ci (ch ">") c = N.eqb (ch ">") c.
Proof. now apply symbol_exact. Qed.

Lemma same_ci_dquote (c : N) : same_ci dquote c = N.eqb dquote c.
Proof. now apply symbol_exact. Qed.

Lemma same_ci_lt (c : N) : same_ci (ch "<") c = N.eqb (ch "<") c.
Proof. now apply symbol_exact. Qed.

(** What is read as an [s] is not read as an equals sign. *)
Lemma same_ci_s_not_equals (z : N) :
  same_ci (ch "s") z = true -> same_ci (ch "=") z = false.
Proof.
  intros H. rewrite symbol_exact by reflexivity.
  destruct (N.eqb (ch "=") z) eqn:E; [|reflexivity].
  apply N.eqb_eq in E. subst z. vm_compute in H. discriminate H.
Qed.
(** ** Names with characters the pattern language gives a meaning *)

Lemma matches_lits (l : text) (re : regex) (v r : text) :
  matches true re v r -> matches true (lits l ++ re) (l ++ v) r.
Proof.
  intros H. induction l as [|c l IH]; [exact H|].
  apply (matches_cons true (Lit c) One (lits l ++ re) [c] (l ++ v) r);
    [|reflexivity|exact IH].
  simpl. now rewrite same_ci_refl.
Qed.

Lemma min_length_lits (l : text) (re : regex) :
  min_length (lits l ++ re) = length l + min_length re.
Proof.
  induction l as [|c l IH]; simpl; [reflexivity|now rewrite IH].
Qed.

(** A document that is a word of the pattern and has no character to
    spare is replaced as a whole. *)
Lemma re_sub_whole (re : regex) (doc repl : text) :
  matches true re doc [] ->
  length doc = min_length re ->
  doc <> [] ->
  re_sub {| ignorecase := true; pieces := re |} repl doc = repl.
Proof.
  intros Hm Hlen Hne. unfold re_sub, re_match. cbn [ignorecase pieces].
  destruct (run_complete true re doc [] Hm) as [r' Hrun].
  assert (r' = []) as ->.
  { apply run_sound, matches_length in Hrun as (m & -> & Hmin).
    rewrite length_app in Hlen. destruct r'; [reflexivity|simpl in Hlen; lia]. }
  rewrite <- (app_nil_r doc) at 1.
  rewrite sub_from_match; [|exact Hne|now rewrite app_nil_r].
  cbn [sub_from].
  destruct (run true re []) as [r|] eqn:E; [|apply app_nil_r].
  apply run_sound, matches_length in E as (m & Hm' & Hmin).
  destruct m; [|discriminate Hm'].
  destruct doc; [congruence|]. simpl in *. lia.
Qed.

(** C5.  Whatever characters a file name has, the pattern compiled for
    it has the name in it letter by letter: a character with a meaning
    in the pattern language is escaped and stands for itself.  So the
    plain tag that references the name is found and replaced, for a
    stylesheet and for a script, and a dot in the name does not stand
    for another character. *)
Theorem special_characters_matched_literally (name content : text) :
  re_compile (css_pattern name) true =
    Some {| ignorecase := true; pieces := css_pieces name |} /\
  re_compile (js_pattern name) true =
    Some {| ignorecase := true; pieces := js_pieces name |} /\
  inline_css name content (plain_link name) = Ok (style_block content) /\
  inline_js name content (plain_script name) = Ok (module_script content) /\
  inline_css (txt "a.css") content (plain_link (txt "aXcss"))
    = Ok (plain_link (txt "aXcss")).
Proof.
  split; [apply css_pattern_compiles|].
  split; [apply js_pattern_compiles|].
  split; [|split].
  - unfold inline_css. rewrite css_pattern_compiles. f_equal.
    apply re_sub_whole.
    + unfold css_pieces, plain_link.
      change (txt "<link href=" ++ [dquote] ++ name ++ [dquote] ++ txt ">")
        with (txt "<link" ++ [ch " "] ++ (txt "href=" ++ [dquote]) ++ []
                ++ name ++ [dquote] ++ [] ++ [ch ">"] ++ []).
      apply matches_lits.
      apply matches_cons; [reflexivity|reflexivity|].
      apply matches_lits.
      apply matches_cons; [reflexivity|reflexivity|].
      apply matches_lits.
      apply (matches_cons true (Lit dquote) One _ [dquote]); [reflexivity|reflexivity|].
      apply matches_cons; [reflexivity|reflexivity|].
      apply (matches_cons true (Lit (ch ">")) One _ [ch ">"]); [reflexivity|reflexivity|].
      constructor.
    + unfold css_pieces, plain_link.
      rewrite !min_length_lits, !length_app. simpl.
      rewrite min_length_lits. simpl. lia.
    + discriminate.
  - unfold inline_js. rewrite js_pattern_compiles. f_equal.
    apply re_sub_whole.
    + unfold js_pieces, plain_script.
      change (txt "<script src=" ++ [dquote] ++ name ++ [dquote] ++ txt "></script>")
        with (txt "<script" ++ [ch " "] ++ (txt "src=" ++ [dquote]) ++ []
                ++ name ++ [dquote] ++ [] ++ [ch ">"] ++ []
                ++ txt "</script>" ++ []).
      apply matches_lits.
      apply matches_cons; [reflexivity|reflexivity|].
      apply matches_lits.
      apply matches_cons; [reflexivity|reflexivity|].
      apply matches_lits.
      apply (matches_cons true (Lit dquote) One _ [dquote]); [reflexivity|reflexivity|].
      apply matches_cons; [reflexivity|reflexivity|].
      apply (matches_cons true (Lit (ch ">")) One _ [ch ">"]); [reflexivity|reflexivity|].
      apply matches_cons; [reflexivity|reflexivity|].
      rewrite <- (app_nil_r (lits (txt "</script>"))).
      apply matches_lits. constructor.
    + unfold js_pieces, plain_script.
      rewrite !min_length_lits, !length_app. simpl.
      rewrite min_length_lits. simpl. lia.
    + discriminate.
  - vm_compute. reflexivity.
Qed.

(** ** Characters and texts *)

Lemma has_char_false (g : N) (s : text) :
  has_char g s = false <-> (forall c, In c s -> N.eqb g c = false).
Proof.
  unfold has_char. induction s as [|d s IH]; simpl.
  - split; [intros _ c []|reflexivity].
  - rewrite orb_false_iff, IH. split.
    + intros [Hd Hs] c [<-|Hc]; auto.
    + intros H. split; [apply H; auto|]. intros c Hc. apply H. auto.
Qed.

Lemma has_char_app (g : N) (u v : text) :
  has_char g (u ++ v) = has_char g u || has_char g v.
Proof. apply existsb_app. Qed.

(** [[^g]] under [re.IGNORECASE], for a [g] without a second case. *)
Lemma not_char_run (g : N) (s : text) :
  (forall c, same_ci g c = N.eqb g c) ->
  forallb (atom_matches true (not_char g)) s = negb (has_char g s).
Proof.
  intros Hg. unfold has_char. induction s as [|c s IH]; [reflexivity|].
  cbn [forallb existsb]. rewrite IH.
  cbn [atom_matches not_char existsb item_matches char_eq].
  rewrite Hg, orb_false_r, negb_orb. reflexivity.
Qed.

Lemma any_char_run (s : text) : forallb (atom_matches true any_char) s = true.
Proof.
  induction s as [|c s IH]; [reflexivity|].
  cbn [forallb]. rewrite IH.
  cbn [atom_matches any_char existsb item_matches xorb].
  destruct (is_space c); reflexivity.
Qed.

(** ** Splitting texts *)

(** A text without [g] that starts [u ++ g :: t] is a prefix of [u]. *)
Lemma split_no_sep (x u t y : text) (g : N) :
  u ++ g :: t = x ++ y ->
  has_char g x = false ->
  exists a, u = x ++ a /\ y = a ++ g :: t.
Proof.
  revert u. induction x as [|c x IH]; intros u H Hx.
  - exists u. auto.
  - cbn [has_char existsb] in Hx. apply orb_false_iff in Hx as [Hc Hx].
    destruct u as [|d u]; simpl in H; inversion H; subst.
    + rewrite N.eqb_refl in Hc. discriminate.
    + destruct (IH u H2 Hx) as (a & -> & ->). exists a. auto.
Qed.

Lemma snoc_suffix (l l2 w : text) (z : N) :
  l ++ l2 = w ++ [z] -> l2 <> [] -> exists l2', l2 = l2' ++ [z].
Proof.
  intros H Hne.
  destruct (exists_last Hne) as (l2' & z' & ->).
  rewrite app_assoc in H. apply app_inj_tail in H as [_ ->]. eauto.
Qed.

Section Aligned.
Variable eqc : N -> N -> bool.

(** When the last character of the pattern is the only one that can
    meet [g], and nothing before [g] can meet it, the pattern ends
    exactly at [g]. *)
Lemma strip_aligned (body u t r : text) (q g : N) :
  (forall c, In c body -> eqc c g = false) ->
  (forall c, In c u -> eqc q c = false) ->
  strip eqc (body ++ [q]) (u ++ g :: t) = Some r ->
  strip eqc body u = Some [].
Proof.
  revert u. induction body as [|b body IH]; intros u Hb Hu H.
  - destruct u as [|c u]; [reflexivity|].
    simpl in H. rewrite (Hu c) in H by (left; reflexivity). discriminate.
  - destruct u as [|c u]; simpl in *.
    + rewrite (Hb b) in H by auto. discriminate.
    + destruct (eqc b c); [|discriminate]. apply IH; auto.
Qed.

Lemma strip_last (body w : text) (e z : N) :
  strip eqc (body ++ [e]) (w ++ [z]) = Some [] -> eqc e z = true.
Proof.
  revert w. induction body as [|b body IH]; intros w H.
  - destruct w as [|c w]; simpl in H.
    + destruct (eqc e z); [reflexivity|discriminate].
    + destruct (eqc e c); [|discriminate].
      destruct w; discriminate.
  - destruct w as [|c w]; simpl in H.
    + destruct (eqc b z); [|discriminate].
      destruct body; discriminate.
    + destruct (eqc b c); [|discriminate]. eauto.
Qed.

(** A text that reads [body ++ [e]] is a text that reads [body],
    followed by a character that reads [e]. *)
Lemma strip_snoc (body s : text) (e : N) :
  strip eqc (body ++ [e]) s = Some [] ->
  exists s0 z, s = s0 ++ [z] /\ strip eqc body s0 = Some [] /\ eqc e z = true.
Proof.
  revert s. induction body as [|b body IH]; intros s H.
  - destruct s as [|c s]; simpl in H; [discriminate|].
    destruct (eqc e c) eqn:E; [|discriminate]. inversion H; subst.
    exists [], c. auto.
  - destruct s as [|c s]; simpl in H; [discriminate|].
    destruct (eqc b c) eqn:E; [|discriminate].
    destruct (IH s H) as (s0 & z & -> & Hs0 & Hz).
    exists (c :: s0), z. simpl. rewrite E. auto.
Qed.
End Aligned.

Lemma has_char_split (g : N) (s : text) :
  has_char g s = true ->
  exists u v, s = u ++ g :: v /\ has_char g u = false.
Proof.
  unfold has_char. induction s as [|c s IH]; simpl; [discriminate|].
  destruct (N.eqb g c) eqn:E.
  - intros _. apply N.eqb_eq in E. subst c. exists [], s. auto.
  - intros H. destruct (IH H) as (u & v & -> & Hu).
    exists (c :: u), v. simpl. rewrite E. auto.
Qed.

Lemma strip_suffix (eqc : N -> N -> bool) (pat s r : text) :
  strip eqc pat s = Some r -> exists m, s = m ++ r.
Proof.
  revert s. induction pat as [|p pat IH]; intros s H; simpl in H.
  - exists []. now inversion H.
  - destruct s as [|c s]; [discriminate|].
    destruct (eqc p c); [|discriminate].
    destruct (IH s H) as [m ->]. now exists (c :: m).
Qed.

(** A text that reads a pattern without quotes has no quote. *)
Lemma spelled_without_dquote (f name : text) :
  strip same_ci f name = Some [] ->
  has_char dquote f = false ->
  has_char dquote name = false.
Proof.
  revert name. induction f as [|p f IH]; intros name H Hf.
  - simpl in H. now inversion H.
  - destruct name as [|c name]; [discriminate|]. simpl in H.
    destruct (same_ci p c) eqn:E; [|discriminate].
    cbn [has_char existsb] in *. apply orb_false_iff in Hf as [Hp Hf].
    apply orb_false_iff. split; [|now apply IH].
    destruct (N.eqb dquote c) eqn:Ec; [|reflexivity].
    apply N.eqb_eq in Ec. subst c.
    apply symbol_only_itself in E; [|reflexivity]. subst p.
    rewrite N.eqb_refl in Hp. discriminate.
Qed.

(** And a pattern that a text without quotes reads has none. *)
Lemma spelling_without_dquote (f name : text) :
  strip same_ci f name = Some [] ->
  has_char dquote name = false ->
  has_char dquote f = false.
Proof.
  revert name. induction f as [|p f IH]; intros name H Hn; [reflexivity|].
  destruct name as [|c name]; [discriminate|]. simpl in H.
  destruct (same_ci p c) eqn:E; [|discriminate].
  cbn [has_char existsb] in *. apply orb_false_iff in Hn as [Hc Hn].
  apply orb_false_iff. split; [|now apply (IH name)].
  destruct (N.eqb dquote p) eqn:Ep; [|reflexivity].
  apply N.eqb_eq in Ep. subst p.
  rewrite same_ci_dquote in E. congruence.
Qed.

(** A pattern character that is no symbol [g] does not read [g]. *)
Lemma pattern_without_symbol (g : N) (s : text) (c : N) :
  is_symbol g = true -> has_char g s = false -> In c s -> same_ci c g = false.
Proof.
  intros Hg H Hc. destruct (same_ci c g) eqn:E; [|reflexivity].
  apply symbol_only_itself in E; [|exact Hg]. subst c.
  pose proof (proj1 (has_char_false g s) H g Hc) as Hr.
  rewrite N.eqb_refl in Hr. discriminate.
Qed.

Lemma spells_strip (pat u : text) :
  spells pat u = true <-> strip same_ci pat u = Some [].
Proof.
  unfold spells. destruct (strip same_ci pat u) as [[|c r]|];
    split; intros H; try reflexivity; discriminate.
Qed.

Lemma endswith_snoc (s suffix : text) (z : N) :
  endswith s (suffix ++ [z]) = true -> exists s', s = s' ++ [z].
Proof.
  unfold endswith, text_eqb. intros H.
  apply andb_true_iff in H as [_ H]. apply bool_decide_eq_true in H.
  set (n := length s - length (suffix ++ [z])) in *.
  exists (firstn n s ++ suffix).
  rewrite <- app_assoc, <- H. symmetry. apply firstn_skipn.
Qed.

(** ** A tag that references the file is matched as a whole *)

(** When the continuation, wherever it accepts after a run of admitted
    characters, ends at one and the same place, that is where a greedy
    repetition ends. *)
Lemma greedy_all (P : N -> bool) (k : matcher) (s r : text) :
  (forall x y, s = x ++ y -> forallb P x = true -> k y = None \/ k y = Some r) ->
  greedy P k s = None \/ greedy P k s = Some r.
Proof.
  induction s as [|c s IH]; intros H; simpl.
  - apply (H [] []); reflexivity.
  - destruct (P c) eqn:Pc.
    + destruct IH as [-> | ->]; [| |now right].
      * intros x y -> Hx. apply (H (c :: x) y); [reflexivity|].
        simpl. now rewrite Pc.
      * apply (H [] (c :: s)); reflexivity.
    + apply (H [] (c :: s)); reflexivity.
Qed.

Lemma greedy_same (P : N -> bool) (k : matcher) (u v r : text) :
  forallb P u = true ->
  k v = Some r ->
  (forall x y, v = x ++ y -> x <> [] -> forallb P x = true ->
     k y = None \/ k y = Some r) ->
  greedy P k (u ++ v) = Some r.
Proof.
  intros Hu Hk Hlonger. induction u as [|c u IH]; simpl in *.
  - destruct (greedy_complete P k [] v r eq_refl Hk) as [r' Hr'].
    simpl in Hr'.
    destruct (greedy_all P k v r) as [H|H]; [|congruence|exact H].
    intros x y -> Hx. destruct x as [|d x].
    + right. exact Hk.
    + apply (Hlonger (d :: x) y); [reflexivity|discriminate|exact Hx].
  - apply andb_true_iff in Hu as [Pc Hu]. rewrite Pc. now rewrite IH.
Qed.

(** Behind an attribute that is opened in a text without a dangling
    one, there is a quote. *)
Lemma dangling_false (lit l a r : text) :
  dangling lit (l ++ a) = false ->
  strip same_ci lit a = Some r ->
  has_char dquote r = true.
Proof.
  induction l as [|c l IH]; intros H Hs.
  - cbn [app] in H. destruct a as [|d a]; cbn [dangling] in H;
      rewrite Hs in H; apply orb_false_iff in H as [H _];
      now apply negb_false_iff in H.
  - cbn [app dangling] in H. apply orb_false_iff in H as [_ H]. auto.
Qed.

Lemma occurs_not_dangling (lit s : text) :
  occurs same_ci lit s = false -> dangling lit s = false.
Proof.
  induction s as [|c s IH]; cbn [occurs dangling]; unfold startswith; intros H.
  - destruct (strip same_ci lit []); [discriminate|reflexivity].
  - apply orb_false_iff in H as [H1 H2].
    destruct (strip same_ci lit (c :: s)); [discriminate|]. now apply IH.
Qed.

Section Tag.
Variables (open body0 f0 : text) (e last_f : N) (tail : regex).
Let body := body0 ++ [e].
Let attr_lit := body ++ [dquote].
Let f := f0 ++ [last_f].

Hypothesis body_no_dquote : has_char dquote body = false.
Hypothesis attr_no_gt : forall c, In c attr_lit -> same_ci c (ch ">") = false.
Hypothesis e_not_last : forall z, same_ci last_f z = true -> same_ci e z = false.

Variables opening before attr path name after rest post : text.

Hypothesis opening_ok : strip same_ci open opening = Some [].
Hypothesis before_ok : before <> [] /\ has_char (ch ">") before = false.
Hypothesis attr_ok : strip same_ci attr_lit attr = Some [].
Hypothesis path_ok : has_char dquote path = false.
Hypothesis name_ok :
  has_char dquote name = false /\ strip same_ci f name = Some [].
Hypothesis after_ok :
  has_char (ch ">") after = false /\ dangling attr_lit after = false.

Let tail3 : regex :=
  [(Lit dquote, One); (not_char (ch ">"), Star); (Lit (ch ">"), One)] ++ tail.
Let value_re : regex := [(not_char dquote, Star)] ++ lits f ++ tail3.

Hypothesis tail_ok : run true tail rest = Some post.

Lemma ci_no_dquote (s : text) (c : N) :
  has_char dquote s = false -> In c s -> same_ci dquote c = false.
Proof.
  intros H Hc. rewrite same_ci_dquote.
  apply (proj1 (has_char_false dquote s) H c Hc).
Qed.

Lemma ci_no_dquote' (s : text) (c : N) :
  has_char dquote s = false -> In c s -> same_ci c dquote = false.
Proof. now apply pattern_without_symbol. Qed.

Lemma f_no_dquote : has_char dquote f = false.
Proof.
  destruct name_ok as [Hn Hs]. exact (spelling_without_dquote f name Hs Hn).
Qed.

(** The attribute does not start where a quote-free end of the path
    and name is followed by the closing quote. *)
Lemma no_attr_at_name_end (l w r : text) :
  path ++ name = l ++ w ->
  strip same_ci attr_lit (w ++ dquote :: after) = Some r ->
  False.
Proof.
  intros HW H. destruct name_ok as [Hname Hspelt].
  assert (Hw : has_char dquote w = false).
  { assert (HWq : has_char dquote (l ++ w) = false)
      by (rewrite <- HW, has_char_app, path_ok, Hname; reflexivity).
    rewrite has_char_app in HWq. now apply orb_false_iff in HWq as [_ ?]. }
  apply strip_aligned in H.
  - destruct (strip_snoc same_ci f0 name last_f Hspelt) as (n0 & z & -> & _ & Hz).
    assert (Hne : w <> []).
    { intros ->. apply strip_length in H. unfold body in H.
      rewrite length_app in H. simpl in H. lia. }
    rewrite app_assoc in HW. symmetry in HW.
    destruct (snoc_suffix l w _ z HW Hne) as (w' & ->).
    apply strip_last in H. rewrite (e_not_last z Hz) in H. discriminate.
  - intros c. apply ci_no_dquote'. exact body_no_dquote.
  - intros c. apply ci_no_dquote. exact Hw.
Qed.

(** The name is not read again from inside the name. *)
Lemma no_later_name (t x y : text) :
  name ++ dquote :: t = x ++ y ->
  x <> [] ->
  has_char dquote x = false ->
  strip same_ci f y = None.
Proof.
  intros Heq Hx Hq. destruct name_ok as [_ Hspelt].
  destruct (strip same_ci f y) as [r|] eqn:E; [exfalso|reflexivity].
  destruct (split_no_sep _ _ _ _ _ Heq Hq) as (a & Hn & ->).
  apply strip_blocked in E as [r' E].
  - apply strip_length in E. pose proof (strip_length _ _ _ _ Hspelt) as Hlen.
    rewrite Hn, length_app in Hlen. destruct x; [congruence|]. simpl in *. lia.
  - intros c. apply ci_no_dquote'. exact f_no_dquote.
Qed.

(** From the closing quote of the value on, the match ends at the next
    [>]. *)
Lemma closing_matched (a2 r : text) :
  has_char (ch ">") a2 = false ->
  run true tail3 (dquote :: a2 ++ ch ">" :: rest) = Some r ->
  r = post.
Proof.
  intros Ha2 H. unfold tail3 in H. cbn [app run once atom_matches char_eq] in H.
  rewrite same_ci_refl in H.
  apply greedy_sound in H as (x & y & Hxy & Hx & Hk).
  rewrite (not_char_run (ch ">") x same_ci_gt) in Hx. apply negb_true_iff in Hx.
  destruct (split_no_sep _ _ _ _ _ Hxy Hx) as (a3 & Ha3 & ->).
  destruct a3 as [|c a3].
  - cbn [app run once atom_matches char_eq] in Hk.
    rewrite same_ci_refl in Hk. congruence.
  - cbn [app run once atom_matches char_eq] in Hk. rewrite same_ci_gt in Hk.
    rewrite Ha3, has_char_app in Ha2. apply orb_false_iff in Ha2 as [_ Ha2].
    cbn [has_char existsb] in Ha2. apply orb_false_iff in Ha2 as [Ha2 _].
    rewrite Ha2 in Hk. discriminate.
Qed.

(** Behind the attribute, the value and the rest of the tag are
    matched. *)
Lemma value_matched :
  run true (lits attr_lit ++ value_re)
    (attr ++ path ++ name ++ dquote :: after ++ ch ">" :: rest) = Some post.
Proof.
  destruct name_ok as [Hname Hspelt].
  rewrite run_lits. cbn [char_eq].
  rewrite (strip_app same_ci attr_lit attr [] _ attr_ok).
  unfold value_re. cbn [app run].
  apply greedy_first.
  - rewrite (not_char_run dquote path same_ci_dquote), path_ok. reflexivity.
  - rewrite run_lits. cbn [char_eq].
    rewrite (strip_app same_ci f name [] _ Hspelt).
    unfold tail3. cbn [app run once atom_matches char_eq].
    rewrite same_ci_refl.
    destruct after_ok as [Hafter _].
    apply greedy_first.
    + rewrite (not_char_run (ch ">") after same_ci_gt), Hafter. reflexivity.
    + cbn [app run once atom_matches char_eq]. rewrite same_ci_refl.
      exact tail_ok.
    + intros x y Hxy Hx HP. destruct x as [|d x]; [congruence|].
      inversion Hxy; subst d.
      rewrite (not_char_run (ch ">") _ same_ci_gt) in HP.
      cbn [has_char existsb] in HP. rewrite N.eqb_refl in HP.
      discriminate.
  - intros x y Hxy Hx HP.
    rewrite (not_char_run dquote x same_ci_dquote) in HP.
    apply negb_true_iff in HP.
    rewrite run_lits. cbn [char_eq].
    now rewrite (no_later_name _ x y Hxy Hx HP).
Qed.

(** An attribute that is opened behind the value and closed again
    leads to the same end of the match. *)
Lemma attr_in_after (l a r : text) :
  after = l ++ a ->
  run true (lits attr_lit ++ value_re) (a ++ ch ">" :: rest) = Some r ->
  r = post.
Proof.
  intros Hafter H. destruct after_ok as [Hgt Hdang].
  rewrite run_lits in H. cbn [char_eq] in H.
  destruct (strip same_ci attr_lit (a ++ ch ">" :: rest)) as [y1|] eqn:Es;
    [|discriminate].
  destruct (strip_blocked same_ci attr_lit a rest y1 (ch ">") attr_no_gt Es)
    as [r' Er'].
  rewrite (strip_app same_ci attr_lit a r' _ Er') in Es.
  assert (y1 = r' ++ ch ">" :: rest) as -> by congruence. clear Es.
  rewrite Hafter in Hdang.
  pose proof (dangling_false attr_lit l a r' Hdang Er') as Hq.
  destruct (has_char_split dquote r' Hq) as (p1 & a2 & -> & Hp1).
  destruct (strip_suffix same_ci attr_lit a _ Er') as [m Ha].
  assert (Ha2 : has_char (ch ">") a2 = false).
  { rewrite Hafter, Ha in Hgt. rewrite !has_char_app in Hgt.
    apply orb_false_iff in Hgt as [_ Hgt]. apply orb_false_iff in Hgt as [_ Hgt].
    apply orb_false_iff in Hgt as [_ Hgt].
    cbn [has_char existsb] in Hgt. now apply orb_false_iff in Hgt as [_ Hgt]. }
  unfold value_re in H. cbn [app run] in H.
  apply greedy_sound in H as (x & y & Hxy & Hx & Hk).
  rewrite (not_char_run dquote x same_ci_dquote) in Hx. apply negb_true_iff in Hx.
  rewrite <- app_assoc in Hxy. cbn [app] in Hxy.
  destruct (split_no_sep _ _ _ _ _ Hxy Hx) as (w & Hw & ->).
  rewrite run_lits in Hk. cbn [char_eq] in Hk.
  destruct (strip same_ci f (w ++ dquote :: a2 ++ ch ">" :: rest)) as [z|] eqn:Ez;
    [|discriminate].
  destruct (strip_blocked same_ci f w (a2 ++ ch ">" :: rest) z dquote) as [w1 Ew1];
    [intros c; apply ci_no_dquote'; exact f_no_dquote|exact Ez|].
  rewrite (strip_app same_ci f w w1 _ Ew1) in Ez.
  assert (z = w1 ++ dquote :: a2 ++ ch ">" :: rest) as -> by congruence. clear Ez.
  destruct w1 as [|c w1].
  - cbn [app] in Hk. now apply (closing_matched a2 r).
  - exfalso. unfold tail3 in Hk. cbn [app run once atom_matches char_eq] in Hk.
    rewrite same_ci_dquote in Hk.
    destruct (strip_suffix same_ci f w _ Ew1) as [m' Hm'].
    assert (Hc : N.eqb dquote c = false).
    { rewrite Hw, Hm' in Hp1. rewrite !has_char_app in Hp1.
      apply orb_false_iff in Hp1 as [_ Hp1]. apply orb_false_iff in Hp1 as [_ Hp1].
      cbn [has_char existsb] in Hp1. now apply orb_false_iff in Hp1 as [Hp1 _]. }
    rewrite Hc in Hk. discriminate.
Qed.

(** Wherever the attribute is read again behind a longer run in front
    of it, the match ends at the same place. *)
Lemma later_attr (x y : text) :
  attr ++ path ++ name ++ dquote :: after ++ ch ">" :: rest = x ++ y ->
  x <> [] ->
  has_char (ch ">") x = false ->
  run true (lits attr_lit ++ value_re) y = None \/
  run true (lits attr_lit ++ value_re) y = Some post.
Proof.
  intros Heq Hx Hgt.
  destruct (run true (lits attr_lit ++ value_re) y) as [r|] eqn:Hrun;
    [right|now left].
  f_equal.
  replace (attr ++ path ++ name ++ dquote :: after ++ ch ">" :: rest)
    with ((attr ++ path ++ name ++ dquote :: after) ++ ch ">" :: rest) in Heq
    by (now rewrite <- !app_assoc).
  destruct (split_no_sep _ _ _ _ _ Heq Hgt) as (a & Ha & ->).
  assert (E : exists r', strip same_ci attr_lit a = Some r').
  { rewrite run_lits in Hrun. cbn [char_eq] in Hrun.
    destruct (strip same_ci attr_lit (a ++ ch ">" :: rest)) as [y1|] eqn:Es;
      [|discriminate].
    exact (strip_blocked same_ci attr_lit a rest y1 (ch ">") attr_no_gt Es). }
  destruct E as [r' E].
  apply app_eq_app in Ha as [l [[Hattr Ha]|[Hxl Hrest]]].
  - (* the attribute would start inside the attribute itself *)
    exfalso. destruct l as [|d l].
    + simpl in Ha. subst a. rewrite app_assoc in E.
      apply (no_attr_at_name_end [] (path ++ name) r'); [reflexivity|exact E].
    + destruct (strip_snoc same_ci body attr dquote attr_ok)
        as (attr0 & z & -> & Hattr0 & Hz).
      rewrite same_ci_dquote in Hz. apply N.eqb_eq in Hz. subst z.
      assert (Hne : d :: l <> []) by discriminate.
      destruct (snoc_suffix x (d :: l) attr0 dquote (eq_sym Hattr) Hne) as (l' & Hl).
      rewrite Hl in *. rewrite app_assoc in Hattr.
      apply app_inj_tail in Hattr as [Hattr _].
      subst a. rewrite <- app_assoc in E. cbn [app] in E.
      apply strip_aligned in E.
      * apply strip_length in E, Hattr0. rewrite Hattr, length_app in Hattr0.
        destruct x; [congruence|]. simpl in *. lia.
      * intros c. apply ci_no_dquote'. exact body_no_dquote.
      * intros c Hc. apply (ci_no_dquote attr0).
        -- apply (spelled_without_dquote body attr0 Hattr0 body_no_dquote).
        -- rewrite Hattr. apply in_or_app. auto.
  - (* or behind it *)
    replace (path ++ name ++ dquote :: after)
      with ((path ++ name) ++ dquote :: after) in Hrest
      by (now rewrite <- app_assoc).
    apply app_eq_app in Hrest as [l2 [[HW Ha]|[Hl Ha]]].
    + exfalso. subst a. eapply no_attr_at_name_end; eauto.
    + destruct l2 as [|d l2]; simpl in Ha.
      * exfalso. subst a. apply (no_attr_at_name_end (path ++ name) [] r').
        -- now rewrite app_nil_r.
        -- exact E.
      * injection Ha as _ Hafter. exact (attr_in_after l2 a r Hafter Hrun).
Qed.

Lemma tag_matched :
  run true
    (lits open ++ [(not_char (ch ">"), Plus)] ++ lits attr_lit ++
     [(not_char dquote, Star)] ++ lits f ++
     [(Lit dquote, One); (not_char (ch ">"), Star); (Lit (ch ">"), One)] ++ tail)
    (opening ++ before ++ attr ++ path ++ name ++ [dquote] ++ after
       ++ [ch ">"] ++ rest)
  = Some post.
Proof.
  rewrite run_lits. cbn [char_eq].
  rewrite (strip_app same_ci open opening [] _ opening_ok). cbn [app].
  destruct before_ok as [Hne Hgt].
  destruct before as [|c before']; [congruence|].
  pose proof (not_char_run (ch ">") (c :: before') same_ci_gt) as Hrun.
  rewrite Hgt in Hrun. cbn [forallb negb] in Hrun.
  apply andb_true_iff in Hrun as [Pc Hbefore].
  cbn [run once app]. rewrite Pc.
  apply greedy_same; [exact Hbefore|exact value_matched|].
  intros x y Hxy Hx HP.
  rewrite (not_char_run (ch ">") x same_ci_gt) in HP.
  apply negb_true_iff in HP.
  exact (later_attr x y Hxy Hx HP).
Qed.
End Tag.
(** No match of a pattern that opens with [<] starts in a text without
    the opening, even when an opening follows. *)
Lemma opening_not_before (open' : text) (re : regex) (x y opening t : text) :
  (forall c, In c open' -> same_ci c (ch "<") = false) ->
  strip same_ci ((ch "<") :: open') opening = Some [] ->
  occurs same_ci ((ch "<") :: open') (x ++ y) = false ->
  y <> [] ->
  run true (lits ((ch "<") :: open') ++ re) (y ++ opening ++ t) = None.
Proof.
  intros Hopen Hsp Hocc Hy.
  rewrite run_lits. cbn [char_eq].
  destruct (strip same_ci ((ch "<") :: open') (y ++ opening ++ t)) as [r|] eqn:E;
    [exfalso|reflexivity].
  destruct opening as [|o opening]; [discriminate Hsp|].
  assert (o = (ch "<")) as ->.
  { simpl in Hsp. destruct (same_ci (ch "<") o) eqn:Eo; [|discriminate].
    rewrite same_ci_lt in Eo. apply N.eqb_eq in Eo. now subst. }
  cbn [app] in E.
  apply strip_before_occurrence in E as [r' E]; [|exact Hopen|exact Hy].
  apply occurs_false_suffix in Hocc.
  rewrite (proj2 (startswith_true _ _ _) (ex_intro _ r' E)) in Hocc.
  discriminate Hocc.
Qed.

Lemma tag_parts_ok_inv (open attr_lit file opening before attr path name after : text) :
  tag_parts_ok open attr_lit file opening before attr path name after = true ->
  strip same_ci open opening = Some [] /\
  (before <> [] /\ has_char (ch ">") before = false) /\
  strip same_ci attr_lit attr = Some [] /\
  has_char dquote path = false /\
  (has_char dquote name = false /\ strip same_ci file name = Some []) /\
  (has_char (ch ">") after = false /\ dangling attr_lit after = false).
Proof.
  unfold tag_parts_ok. rewrite !andb_true_iff, !negb_true_iff, !spells_strip.
  intros [[[[[[[[H1 H2] H3] H4] H5] H6] H7] H8] H9].
  repeat split; auto. intros ->. discriminate.
Qed.

Lemma href_no_gt (c : N) : In c ((txt "href" ++ [ch "="]) ++ [dquote]) -> same_ci c (ch ">") = false.
Proof.
  simpl. intros H. repeat (destruct H as [<-|H]; [reflexivity|]). destruct H.
Qed.

Lemma src_no_gt (c : N) : In c ((txt "src" ++ [ch "="]) ++ [dquote]) -> same_ci c (ch ">") = false.
Proof.
  simpl. intros H. repeat (destruct H as [<-|H]; [reflexivity|]). destruct H.
Qed.

(** The first pattern, at the start of a tag that references the file,
    matches the tag and no more. *)
Lemma link_tag_matched (css_file opening before attr path name after post : text) :
  endswith css_file (txt ".css") = true ->
  tag_parts_ok (txt "<link") href_attr css_file
    opening before attr path name after = true ->
  run true (css_pieces css_file)
    (tag_text opening before attr path name after ++ post) = Some post.
Proof.
  intros Hend Hparts.
  apply tag_parts_ok_inv in Hparts as (H1 & H2 & H3 & H4 & H5 & H6).
  destruct (endswith_snoc css_file (txt ".cs") (ch "s") Hend) as [f0 ->].
  unfold tag_text, css_pieces. rewrite <- !app_assoc.
  rewrite <- (app_nil_r [(Lit dquote, One); (not_char (ch ">"), Star); (Lit (ch ">"), One)]).
  apply (tag_matched (txt "<link") (txt "href") f0 (ch "=") (ch "s") []
           eq_refl href_no_gt same_ci_s_not_equals
           opening before attr path name after post post H1 H2 H3 H4 H5 H6).
  reflexivity.
Qed.

Lemma script_tag_matched
    (js_file opening before attr path name after inner closing post : text) :
  endswith js_file (txt ".js") = true ->
  tag_parts_ok (txt "<script") src_attr js_file
    opening before attr path name after = true ->
  occurs same_ci (txt "</script>") inner = false ->
  spells (txt "</script>") closing = true ->
  run true (js_pieces js_file)
    (tag_text opening before attr path name after ++ inner ++ closing ++ post)
  = Some post.
Proof.
  intros Hend Hparts Hinner Hclosing.
  apply tag_parts_ok_inv in Hparts as (H1 & H2 & H3 & H4 & H5 & H6).
  apply spells_strip in Hclosing.
  destruct (endswith_snoc js_file (txt ".j") (ch "s") Hend) as [f0 ->].
  unfold tag_text, js_pieces. rewrite <- !app_assoc.
  apply (tag_matched (txt "<script") (txt "src") f0 (ch "=") (ch "s")
           ([(any_char, StarLazy)] ++ lits (txt "</script>"))
           eq_refl src_no_gt same_ci_s_not_equals
           opening before attr path name after (inner ++ closing ++ post) post
           H1 H2 H3 H4 H5 H6).
  cbn [app run].
  apply lazy_first.
  - apply any_char_run.
  - rewrite <- (app_nil_r (lits (txt "</script>"))), run_lits. cbn [char_eq].
    now rewrite (strip_app same_ci _ closing [] post Hclosing).
  - intros x y -> Hy.
    rewrite <- (app_nil_r (lits (txt "</script>"))).
    apply (opening_not_before (txt "/script>") [] x y closing post); auto.
    simpl. intros c H. repeat (destruct H as [<-|H]; [reflexivity|]). destruct H.
Qed.

(** ** Replacing the tags *)

Lemma tag_text_not_nil (opening before attr path name after : text) :
  tag_text opening before attr path name after <> [].
Proof.
  intros H. apply (f_equal (@length N)) in H. unfold tag_text in H.
  rewrite !length_app in H. simpl in H. lia.
Qed.

Lemma link_no_lt (c : N) : In c (txt "link") -> same_ci c (ch "<") = false.
Proof.
  simpl. intros H. repeat (destruct H as [<-|H]; [reflexivity|]). destruct H.
Qed.

Lemma script_no_lt (c : N) : In c (txt "script") -> same_ci c (ch "<") = false.
Proof.
  simpl. intros H. repeat (destruct H as [<-|H]; [reflexivity|]). destruct H.
Qed.

(** The substitution for a stylesheet, where the document has a tag
    that references it and no [<link] before. *)
Lemma link_tag_replaced
    (css_file css_content pre opening before attr path name after post : text) :
  endswith css_file (txt ".css") = true ->
  occurs same_ci (txt "<link") pre = false ->
  tag_parts_ok (txt "<link") href_attr css_file
    opening before attr path name after = true ->
  exists post',
    inline_css css_file css_content post = Ok post' /\
    inline_css css_file css_content
      (pre ++ tag_text opening before attr path name after ++ post)
    = Ok (pre ++ style_block css_content ++ post').
Proof.
  intros Hend Hpre Hparts.
  unfold inline_css. rewrite css_pattern_compiles.
  eexists. split; [reflexivity|]. f_equal.
  unfold re_sub, re_match. cbn [ignorecase pieces].
  rewrite sub_from_frame.
  - f_equal. apply sub_from_match; [apply tag_text_not_nil|].
    now apply link_tag_matched.
  - intros x y -> Hy.
    apply tag_parts_ok_inv in Hparts as (H1 & _).
    unfold tag_text. rewrite <- !app_assoc.
    apply (opening_not_before (txt "link") _ x y opening); auto.
    apply link_no_lt.
Qed.

Lemma script_tag_substituted
    (js_file js_content pre opening before attr path name after
       inner closing post : text) :
  endswith js_file (txt ".js") = true ->
  occurs same_ci (txt "<script") pre = false ->
  tag_parts_ok (txt "<script") src_attr js_file
    opening before attr path name after = true ->
  occurs same_ci (txt "</script>") inner = false ->
  spells (txt "</script>") closing = true ->
  exists post',
    inline_js js_file js_content post = Ok post' /\
    inline_js js_file js_content
      (pre ++ (tag_text opening before attr path name after ++ inner ++ closing)
           ++ post)
    = Ok (pre ++ module_script js_content ++ post').
Proof.
  intros Hend Hpre Hparts Hinner Hclosing.
  unfold inline_js. rewrite js_pattern_compiles.
  eexists. split; [reflexivity|]. f_equal.
  unfold re_sub, re_match. cbn [ignorecase pieces].
  rewrite sub_from_frame.
  - f_equal. apply sub_from_match.
    + intros H. apply app_eq_nil in H as [H _]. revert H. apply tag_text_not_nil.
    + rewrite <- !app_assoc. now apply script_tag_matched.
  - intros x y -> Hy.
    apply tag_parts_ok_inv in Hparts as (H1 & _).
    unfold tag_text. rewrite <- !app_assoc.
    apply (opening_not_before (txt "script") _ x y opening); auto.
    apply script_no_lt.
Qed.
(** ** Occurrences in a text put together from parts *)




Section Cut.
Variable eqc : N -> N -> bool.
Variables (l0 g : N) (lit : text).
Hypothesis only_first : forall c, In c lit -> eqc c g = false.

Lemma startswith_before (y t : text) :
  y <> [] ->
  startswith eqc (l0 :: lit) (y ++ g :: t) = startswith eqc (l0 :: lit) y.
Proof.
  intros Hy. destruct (startswith eqc (l0 :: lit) y) eqn:E.
  - now apply startswith_app.
  - destruct (startswith eqc (l0 :: lit) (y ++ g :: t)) eqn:E'; [|reflexivity].
    apply startswith_true in E' as [r E'].
    apply strip_before_occurrence in E' as [r' E']; auto.
    rewrite (proj2 (startswith_true _ _ _) (ex_intro _ r' E')) in E.
    discriminate E.
Qed.

(** An occurrence lies on one side of a character that the pattern
    has at most as its first. *)
Lemma occurs_cut_before (u v : text) :
  occurs eqc (l0 :: lit) (u ++ g :: v) =
  occurs eqc (l0 :: lit) u || occurs eqc (l0 :: lit) (g :: v).
Proof.
  induction u as [|c u IH]; [reflexivity|].
  cbn [app occurs].
  change (c :: u ++ g :: v) with ((c :: u) ++ g :: v).
  rewrite startswith_before by discriminate.
  rewrite IH. now rewrite orb_assoc.
Qed.
End Cut.
(** ** Which files the pass opens *)



Lemma filter_map_fst (p : text -> bool) (l : list (text * file)) :
  List.filter p (map fst l) = map fst (List.filter (fun e => p (fst e)) l).
Proof.
  induction l as [|[n f] l IH]; [reflexivity|]. simpl.
  destruct (p n); simpl; now rewrite IH.
Qed.

Lemma find_named (name : text) (entries : list (text * file)) (n : text) (f : file) :
  find (fun e => text_eqb (fst e) name) entries = Some (n, f) ->
  n = name /\ In (n, f) entries.
Proof.
  intros H. apply find_some in H as [Hin Heq].
  unfold text_eqb in Heq. apply bool_decide_eq_true in Heq. auto.
Qed.





Lemma filter_none {A : Type} (p : A -> bool) (l : list A) :
  (forall x, In x l -> p x = false) -> List.filter p l = [].
Proof.
  induction l as [|x l IH]; intros H; [reflexivity|]. simpl.
  rewrite (H x) by (left; reflexivity). apply IH. intros y Hy.
  apply H. now right.
Qed.







(** ** Which errors the pass raises *)

Lemma inline_css_ok (name content html_content : text) :
  exists r, inline_css name content html_content = Ok r.
Proof. unfold inline_css. rewrite css_pattern_compiles. eauto. Qed.

Lemma inline_js_ok (name content html_content : text) :
  exists r, inline_js name content html_content = Ok r.
Proof. unfold inline_js. rewrite js_pattern_compiles. eauto. Qed.

(** In a directory without two entries of one name, a name opens the
    file listed under it. *)
Lemma open_asset_entry (entries : list (text * file)) (n : text) (f : file) :
  List.NoDup (map fst entries) ->
  In (n, f) entries ->
  open_asset (AssetsDir entries) n = read f.
Proof.
  unfold open_asset. induction entries as [|[n' f'] entries IH]; intros Hnd Hin.
  - destruct Hin.
  - cbn [find fst]. inversion Hnd as [|? ? Hnot Hnd']; subst.
    destruct Hin as [Heq|Hin].
    + inversion Heq; subst. unfold text_eqb.
      now rewrite bool_decide_eq_true_2.
    + unfold text_eqb. rewrite bool_decide_eq_false_2; [now apply IH|].
      intros ->. apply Hnot. apply in_map_iff. exists (n, f). auto.
Qed.

Lemma first_error_app (l1 l2 : list file) :
  first_error (l1 ++ l2) =
  match first_error l1 with Some e => Some e | None => first_error l2 end.
Proof.
  induction l1 as [|[c|e] l1 IH]; simpl; auto.
Qed.

(** A loop over some of the entries raises the error of the first of
    them that cannot be read, and ends normally when there is none. *)
Lemma for_each_first_error (entries part : list (text * file))
    (step : text -> text -> text -> result text) (html_content : text) :
  List.NoDup (map fst entries) ->
  (forall e, In e part -> In e entries) ->
  (forall n c h, exists r, step n c h = Ok r) ->
  match first_error (map snd part) with
  | Some e => for_each (AssetsDir entries) step (map fst part) html_content = Raise e
  | None => exists r, for_each (AssetsDir entries) step (map fst part) html_content = Ok r
  end.
Proof.
  intros Hnd Hsub Hstep. revert html_content.
  induction part as [|[n f] part IH]; intros h; [simpl; eauto|].
  cbn [map fst snd for_each].
  rewrite (open_asset_entry entries n f Hnd) by (apply Hsub; left; reflexivity).
  destruct f as [c|e]; cbn [read first_error mbind result_bind]; [|reflexivity].
  destruct (Hstep n c h) as [h' ->]. cbn [mbind result_bind].
  apply IH. intros e He. apply Hsub. now right.
Qed.

Lemma inline_assets_first_error (entries : list (text * file)) (html_content : text) :
  List.NoDup (map fst entries) ->
  match first_error
          (map snd (List.filter (fun e => is_stylesheet (fst e)) entries)
           ++ map snd (List.filter (fun e => is_script (fst e)) entries)) with
  | Some e => inline_assets (AssetsDir entries) html_content = Raise e
  | None => exists r, inline_assets (AssetsDir entries) html_content = Ok r
  end.
Proof.
  intros Hnd. unfold inline_assets. cbn [path_exists listdir mbind result_bind].
  change (fun f : text => endswith f (txt ".css")) with is_stylesheet.
  change (fun f : text => endswith f (txt ".js")) with is_script.
  rewrite !filter_map_fst, first_error_app.
  pose proof (for_each_first_error entries
                (List.filter (fun e => is_stylesheet (fst e)) entries)
                inline_css html_content Hnd) as Hcss.
  destruct (first_error (map snd (List.filter (fun e => is_stylesheet (fst e)) entries))).
  - rewrite Hcss; [reflexivity| |apply inline_css_ok].
    intros x Hx. now apply filter_In in Hx as [? _].
  - destruct Hcss as [h ->]; [|apply inline_css_ok|].
    + intros x Hx. now apply filter_In in Hx as [? _].
    + cbn [mbind result_bind].
      apply for_each_first_error; [exact Hnd| |apply inline_js_ok].
      intros x Hx. now apply filter_In in Hx as [? _].
Qed.

(** ** The bounded test for texts in which no match starts *)

Section Open.
Variable P : N -> bool.
Variable k : matcher.
Variable k_open : text -> bool.
Hypothesis k_sound : forall s, k_open s = false -> forall rest, k (s ++ rest) = None.



End Open.





(** ** The whole pass on a page of texts and tags *)









Lemma existsb_text_in (g : text) (l : list text) :
  existsb (text_eqb g) l = true <-> In g l.
Proof.
  rewrite existsb_exists. unfold text_eqb. split.
  - intros (x & Hx & H). apply bool_decide_eq_true in H. now subst.
  - intros H. exists g. split; [exact H|]. now apply bool_decide_eq_true.
Qed.








(** ** The minimal page *)



Section Through.
Variable eqc : N -> N -> bool.

Lemma agrees_false (pat a x : text) :
  agrees eqc pat a = false -> strip eqc pat (a ++ x) = None.
Proof.
  revert a. induction pat as [|p pat IH]; intros a H; [discriminate|].
  destruct a as [|c a]; [discriminate|]. simpl in *.
  destruct (eqc p c); [auto|reflexivity].
Qed.

(** A fixed part in which no occurrence can start is passed over. *)
Lemma occurs_through (pat a x : text) :
  clear_of eqc pat a = true ->
  occurs eqc pat (a ++ x) = occurs eqc pat x.
Proof.
  induction a as [|c a IH]; intros H; [reflexivity|].
  cbn [clear_of] in H. apply andb_true_iff in H as [H1 H2].
  apply negb_true_iff in H1.
  cbn [app occurs]. unfold startswith.
  change (c :: a ++ x) with ((c :: a) ++ x).
  rewrite (agrees_false pat (c :: a) x H1). now rewrite IH.
Qed.

(** A part without an occurrence, followed by a fixed part that starts
    apart from the pattern, adds no occurrence. *)
Lemma occurs_cut (pat u b y : text) :
  starts_apart eqc pat b = true ->
  occurs eqc pat (u ++ b ++ y) =
  occurs eqc pat u || occurs eqc pat (b ++ y).
Proof.
  unfold starts_apart. destruct pat as [|l0 lit]; [discriminate|].
  destruct b as [|g b]; [discriminate|]. intros H.
  apply occurs_cut_before. intros c Hc.
  rewrite forallb_forall in H. apply negb_true_iff. now apply H.
Qed.
End Through.



(** ** The claims on asset inlining *)



(** ** The two reported failures *)


(** ** Where the keys come from *)

Lemma get_key_unset (w : world) (name : string) :
  environ w !! name = None \/ environ w !! name = Some [] ->
  get_key w name = secrets_get (secrets w) name.
Proof. intros [H|H]; unfold get_key; now rewrite H. Qed.

Lemma get_key_set (w : world) (name : string) (c : N) (v : text) :
  environ w !! name = Some (c :: v) -> get_key w name = Ok (c :: v).
Proof. intros H. unfold get_key. now rewrite H. Qed.

(** A lookup that fails ends the call, with nothing rendered. *)
Lemma load_react_app_key_error
    (w : world) (b : build) (index : file) (doc : text) (e : exn) :
  dist w = Some b -> index_html b = Some index ->
  read index ≫= inline_assets (assets b) = Ok doc ->
  inject_keys w doc = Raise e ->
  load_react_app w = ([], Raised e).
Proof.
  intros Hd Hi Hdoc He.
  rewrite (load_react_app_past_checks w b index Hd Hi).
  now rewrite (assemble_inlined w b index doc Hdoc), He.
Qed.

(** C9, on the code.  An environment variable that is unset or empty
    gives way to the secrets store, and the two are not told apart.
    With a secrets file, the key is the value the file has for the name,
    and the empty string when it has none.  Without a secrets file the
    lookup raises instead of giving the empty string, and the call that
    needs the key ends with that error after the files are read. *)
Theorem get_key_falls_back_to_secrets (w : world) (name : string) :
  (environ w !! name = None \/ environ w !! name = Some []) ->
  (forall values v, secrets w = SecretsFile values -> values !! name = Some v ->
     get_key w name = Ok v) /\
  (forall values, secrets w = SecretsFile values -> values !! name = None ->
     get_key w name = Ok []) /\
  (forall w', store_value (secrets w') name = store_value (secrets w) name ->
     (environ w' !! name = None \/ environ w' !! name = Some []) ->
     get_key w' name = get_key w name) /\
  (secrets w = NoSecretsFile ->
     get_key w name = Raise SecretsNotFound /\
     (In name ["API_KEY"; "DEEPSEEK_API_KEY"]%string ->
      forall b index doc, dist w = Some b -> index_html b = Some index ->
        read index ≫= inline_assets (assets b) = Ok doc ->
        load_react_app w = ([], Raised SecretsNotFound))).
Proof.
  intros Henv. rewrite (get_key_unset w name Henv).
  split; [|split; [|split]].
  - intros values v -> Hv. cbn [secrets_get]. now rewrite Hv.
  - intros values -> Hv. cbn [secrets_get]. now rewrite Hv.
  - intros w' Hs Henv'. rewrite (get_key_unset w' name Henv').
    destruct (secrets w') as [|m']; destruct (secrets w) as [|m];
      cbn [store_value secrets_get] in *; try discriminate; [reflexivity|].
    injection Hs as ->. reflexivity.
  - intros Hs. rewrite Hs. split; [reflexivity|].
    intros Hname b index doc Hd Hi Hdoc.
    apply (load_react_app_key_error w b index doc _ Hd Hi Hdoc).
    unfold inject_keys. destruct Hname as [<-|[<-|[]]].
    + rewrite (get_key_unset w _ Henv), Hs. reflexivity.
    + rewrite (get_key_unset w "DEEPSEEK_API_KEY" Henv), Hs.
      unfold get_key. rewrite Hs.
      destruct (environ w !! "API_KEY"%string) as [[|c v]|]; reflexivity.
Qed.

Lemma load_react_app_same_keys (w1 w2 : world) :
  dist w1 = dist w2 ->
  get_key w1 "API_KEY" = get_key w2 "API_KEY" ->
  get_key w1 "DEEPSEEK_API_KEY" = get_key w2 "DEEPSEEK_API_KEY" ->
  load_react_app w1 = load_react_app w2.
Proof.
  intros Hd Hg Hk.
  assert (Hinj : forall html, inject_keys w1 html = inject_keys w2 html)
    by (intros html; unfold inject_keys; now rewrite Hg, Hk).
  unfold load_react_app. rewrite <- Hd.
  destruct (dist w1) as [b|]; [|reflexivity].
  destruct (index_html b) as [index|]; [|reflexivity].
  unfold assemble.
  destruct (read index) as [html|e]; [|reflexivity]. cbn [mbind result_bind].
  destruct (inline_assets (assets b) html) as [doc|e]; [|reflexivity].
  cbn [mbind result_bind]. now rewrite Hinj.
Qed.

Lemma secrets_get_store (s1 s2 : secrets_store) (name : string) :
  store_value s1 name = store_value s2 name ->
  secrets_get s1 name = secrets_get s2 name.
Proof.
  destruct s1 as [|m1]; destruct s2 as [|m2]; cbn [store_value secrets_get];
    try discriminate; [reflexivity|].
  intros H. injection H as ->. reflexivity.
Qed.

(** C7.  The outcome is a function of what the script reads: two runs
    that find the same [dist] tree and the same values of the two keys
    in the environment and in the secrets store (or no secrets file in
    both) make the same calls with the same text, whatever else the
    environment and the store hold. *)
Theorem load_react_app_deterministic (w1 w2 : world) :
  dist w1 = dist w2 ->
  (forall name : string, In name ["API_KEY"; "DEEPSEEK_API_KEY"]%string ->
     environ w1 !! name = environ w2 !! name /\
     store_value (secrets w1) name = store_value (secrets w2) name) ->
  load_react_app w1 = load_react_app w2.
Proof.
  intros Hd Hk.
  assert (Hkey : forall name : string,
             In name ["API_KEY"; "DEEPSEEK_API_KEY"]%string ->
             get_key w1 name = get_key w2 name).
  { intros name Hn. destruct (Hk name Hn) as [He Hs].
    unfold get_key. rewrite He, (secrets_get_store _ _ _ Hs). reflexivity. }
  apply load_react_app_same_keys; [exact Hd| |]; apply Hkey; simpl; auto.
Qed.

(** ** Key injection *)

(** C3, on the code.  With [API_KEY] set to [abc] and
    [DEEPSEEK_API_KEY] set to the empty string in the environment, the
    empty value sends the second lookup to the secrets store.  When
    there is no secrets file the call raises there and renders nothing.
    When there is one, without a value for [DEEPSEEK_API_KEY], the
    rendered text has, directly in front of a closing head tag of the
    document, the script block [abc_script], which assigns the empty
    string to [window.DEEPSEEK_API_KEY] and [abc] to [window.API_KEY]. *)
Theorem keys_from_environment_injected
    (w : world) (b : build) (index : file) (pre post : text) :
  environ w !! "API_KEY"%string = Some (txt "abc") ->
  environ w !! "DEEPSEEK_API_KEY"%string = Some [] ->
  dist w = Some b ->
  index_html b = Some index ->
  read index ≫= inline_assets (assets b) = Ok (pre ++ txt "</head>" ++ post) ->
  (secrets w = NoSecretsFile ->
     load_react_app w = ([], Raised SecretsNotFound)) /\
  (forall values,
     secrets w = SecretsFile values ->
     values !! "DEEPSEEK_API_KEY"%string = None ->
     exists pre' post',
       inject_keys w pre = Ok pre' /\
       inject_keys w post = Ok post' /\
       load_react_app w =
         ([st_components_html
             (pre' ++ (abc_script ++ txt "</head>") ++ post') 1000 true],
          Returned)).
Proof.
  intros Hg Hd Hdist Hi Hdoc.
  assert (Hgk : get_key w "API_KEY" = Ok (txt "abc"))
    by (unfold get_key; rewrite Hg; reflexivity).
  assert (Hdk : get_key w "DEEPSEEK_API_KEY" =
                secrets_get (secrets w) "DEEPSEEK_API_KEY")
    by (apply get_key_unset; now right).
  split.
  - intros Hs.
    apply (load_react_app_key_error w b index _ _ Hdist Hi Hdoc).
    unfold inject_keys. rewrite Hgk, Hdk, Hs. reflexivity.
  - intros values Hs Hv. rewrite Hs in Hdk. cbn [secrets_get] in Hdk.
    rewrite Hv in Hdk. cbn [default] in Hdk.
    exists (with_script [] (txt "abc") pre), (with_script [] (txt "abc") post).
    split; [now apply inject_keys_ok|]. split; [now apply inject_keys_ok|].
    rewrite (load_react_app_renders w b index _ _ _ Hdist Hi Hdoc Hgk Hdk).
    change (txt "</head>") with head_close. now rewrite with_script_app.
Qed.

(** C8, as it holds.  When both keys are obtained, the script is put in
    front of every occurrence of the exact text [</head>] in the
    document that key injection receives, which is the entry page after
    asset inlining; another spelling such as [</HEAD>] is not an
    occurrence.  When that document has no occurrence it is rendered as
    it is, without the keys and without an error. *)
Theorem script_before_every_head_close (w : world) (gk dk : text) :
  get_key w "API_KEY" = Ok gk ->
  get_key w "DEEPSEEK_API_KEY" = Ok dk ->
  (forall u v, exists u' v',
     inject_keys w u = Ok u' /\
     inject_keys w v = Ok v' /\
     inject_keys w (u ++ txt "</head>" ++ v) =
       Ok (u' ++ (injection_script dk gk ++ txt "</head>") ++ v')) /\
  (forall doc, occurs same (txt "</head>") doc = false ->
     inject_keys w doc = Ok doc) /\
  inject_keys w (txt "</HEAD>") = Ok (txt "</HEAD>") /\
  (forall b index doc,
     dist w = Some b -> index_html b = Some index ->
     read index ≫= inline_assets (assets b) = Ok doc ->
     occurs same (txt "</head>") doc = false ->
     load_react_app w = ([st_components_html doc 1000 true], Returned)).
Proof.
  intros Hg Hk. change (txt "</head>") with head_close.
  split; [|split; [|split]].
  - intros u v. exists (with_script dk gk u), (with_script dk gk v).
    rewrite !(inject_keys_ok w gk dk) by assumption.
    now rewrite with_script_app.
  - intros doc Hno. rewrite (inject_keys_ok w gk dk) by assumption.
    now rewrite with_script_absent.
  - rewrite (inject_keys_ok w gk dk) by assumption.
    now rewrite with_script_absent.
  - intros b index doc Hd Hi Hdoc Hno.
    rewrite (load_react_app_renders w b index doc gk dk Hd Hi Hdoc Hg Hk).
    now rewrite with_script_absent.
Qed.

(** C8, as stated, fails: the entry page below has no [</head>], the
    stylesheet inlined into it has one, and the script is inserted
    there. *)
Lemma script_inserted_without_head_close_in_entry :
  occurs same head_close headless_page = false /\
  load_react_app (no_keys (Some headless_build)) =
    ([st_components_html
        (txt "<html><style>/* " ++ injection_script [] [] ++ txt "</head> */</style><body></body></html>")
        1000 true], Returned).
Proof.
  split; vm_compute; reflexivity.
Qed.

(** ** Without an assets directory *)

(** C10, on the code.  With [dist] and a readable [index.html] but no
    [assets] directory, neither inlining loop runs and the entry text
    goes to key injection as it is.  When both keys are obtained the
    call renders the entry text with the key script in front of every
    closing head tag.  When a lookup fails, as it does when no variable
    is set and there is no secrets file, the call raises and renders
    nothing. *)
Theorem missing_assets_dir_skips_inlining (w : world) (b : build) (content : text) :
  dist w = Some b ->
  index_html b = Some (Readable content) ->
  assets b = NoAssets ->
  inline_assets (assets b) content = Ok content /\
  (forall gk dk,
     get_key w "API_KEY" = Ok gk ->
     get_key w "DEEPSEEK_API_KEY" = Ok dk ->
     load_react_app w =
       ([st_components_html
           (str_replace content (txt "</head>")
              (injection_script dk gk ++ txt "</head>"))
           1000 true], Returned)) /\
  (environ w !! "API_KEY"%string = None ->
   secrets w = NoSecretsFile ->
   load_react_app w = ([], Raised SecretsNotFound)).
Proof.
  intros Hd Hi Ha.
  assert (Hin : inline_assets (assets b) content = Ok content)
    by (rewrite Ha; reflexivity).
  assert (Hdoc : read (Readable content) ≫= inline_assets (assets b) = Ok content)
    by exact Hin.
  split; [exact Hin|]. split.
  - intros gk dk Hg Hk.
    exact (load_react_app_renders w b (Readable content) content gk dk
             Hd Hi Hdoc Hg Hk).
  - intros Henv Hs.
    apply (load_react_app_key_error w b (Readable content) content _ Hd Hi Hdoc).
    unfold inject_keys, get_key. rewrite Henv, Hs. reflexivity.
Qed.

(** ** Errors past the two checks *)

(** X2.  Past the two checks, with a directory that lists no name twice,
    the call raises the error of the first file it cannot read, in the
    order it opens them (the entry page, the stylesheets as listed, the
    scripts as listed), and then makes no call to the host.  When it can
    read them all it looks up the two keys, [API_KEY] first: a lookup
    that fails ends the call with its error and no call to the host, and
    otherwise the call renders, once, with height 1000 and scrolling.
    Compiling a pattern never fails. *)
Theorem load_react_app_first_error
    (w : world) (b : build) (index : file) (entries : list (text * file)) :
  dist w = Some b ->
  index_html b = Some index ->
  assets b = AssetsDir entries ->
  List.NoDup (map fst entries) ->
  match first_error (files_opened index entries) with
  | Some e => load_react_app w = ([], Raised e)
  | None =>
      match get_key w "API_KEY", get_key w "DEEPSEEK_API_KEY" with
      | Ok _, Ok _ =>
          exists out,
            load_react_app w = ([st_components_html out 1000 true], Returned)
      | Raise e, _ | Ok _, Raise e => load_react_app w = ([], Raised e)
      end
  end.
Proof.
  intros Hd Hi Ha Hnd.
  rewrite (load_react_app_past_checks w b index Hd Hi).
  unfold assemble, files_opened. rewrite Ha.
  destruct index as [html|e]; cbn [first_error read mbind result_bind]; [|reflexivity].
  pose proof (inline_assets_first_error entries html Hnd) as H.
  destruct (first_error _) as [e|].
  - now rewrite H.
  - destruct H as [doc ->]. cbn [mbind result_bind]. unfold inject_keys.
    destruct (get_key w "API_KEY") as [gk|e]; cbn [mbind result_bind];
      [|reflexivity].
    destruct (get_key w "DEEPSEEK_API_KEY") as [dk|e]; cbn [mbind result_bind];
      [|reflexivity].
    eauto.
Qed.

(** ** Documents without tags to replace *)

(** A pattern that opens with a literal matches nowhere in a text
    without that literal. *)
Lemma search_needs_opening (lit : text) (re : regex) (s : text) :
  occurs same_ci lit s = false ->
  search_from (run true (lits lit ++ re)) s = false.
Proof.
  induction s as [|c s IH]; cbn [occurs search_from]; intros H.
  - rewrite orb_false_r in H. rewrite run_lits. cbn [char_eq].
    unfold startswith in H. destruct (strip same_ci lit []); [discriminate|reflexivity].
  - apply orb_false_iff in H as [H1 H2]. rewrite run_lits. cbn [char_eq].
    unfold startswith in H1.
    destruct (strip same_ci lit (c :: s)); [discriminate|]. now apply IH.
Qed.

Lemma inline_css_no_link (name content html_content : text) :
  occurs same_ci (txt "<link") html_content = false ->
  inline_css name content html_content = Ok html_content.
Proof.
  intros H. apply inline_css_absent. unfold pattern_found.
  rewrite css_pattern_compiles. unfold re_search, re_match, css_pieces.
  cbn [ignorecase pieces]. now apply search_needs_opening.
Qed.

Lemma inline_js_no_script (name content html_content : text) :
  occurs same_ci (txt "<script") html_content = false ->
  inline_js name content html_content = Ok html_content.
Proof.
  intros H. unfold inline_js. rewrite js_pattern_compiles. f_equal.
  apply sub_from_absent. unfold re_match, js_pieces.
  cbn [ignorecase pieces]. now apply search_needs_opening.
Qed.

Lemma open_asset_readable (entries : list (text * file)) (name : text) :
  assets_readable entries = true ->
  In name (map fst entries) ->
  is_stylesheet name || is_script name = true ->
  exists c, open_asset (AssetsDir entries) name = Ok c.
Proof.
  intros Hread Hin Hsel. unfold open_asset.
  destruct (find (fun e => text_eqb (fst e) name) entries) as [[n f]|] eqn:E.
  - apply find_named in E as [-> Hf].
    unfold assets_readable in Hread. rewrite forallb_forall in Hread.
    specialize (Hread _ Hf). cbn [fst snd] in Hread. rewrite Hsel in Hread.
    destruct f as [c|e]; [eauto|discriminate].
  - apply in_map_iff in Hin as ([n f] & <- & Hf).
    apply (find_none _ _ E) in Hf. cbn [fst] in Hf.
    unfold text_eqb in Hf. rewrite bool_decide_eq_true_2 in Hf by reflexivity.
    discriminate.
Qed.

Lemma for_each_fixed (a : assets_node)
    (step : text -> text -> text -> result text)
    (names : list text) (doc : text) :
  (forall n, In n names -> exists c, open_asset a n = Ok c) ->
  (forall n c, step n c doc = Ok doc) ->
  for_each a step names doc = Ok doc.
Proof.
  intros Hopen Hstep. induction names as [|n names IH]; [reflexivity|].
  cbn [for_each]. destruct (Hopen n) as [c ->]; [left; reflexivity|].
  cbn [mbind result_bind]. rewrite Hstep. cbn [mbind result_bind].
  apply IH. intros m Hm. apply Hopen. now right.
Qed.
(** X3.  A page that has no [<link] and no [<script], in any letter
    case the engine folds, comes out of inlining as it went in, whatever
    the readable stylesheets and scripts of the directory hold; when
    both keys are obtained, what is rendered is the entry text with the
    key script in front of every closing head tag. *)
Theorem untagged_page_only_gets_keys
    (w : world) (b : build) (doc : text) (entries : list (text * file))
    (gk dk : text) :
  dist w = Some b ->
  index_html b = Some (Readable doc) ->
  assets b = AssetsDir entries ->
  assets_readable entries = true ->
  occurs same_ci (txt "<link") doc = false ->
  occurs same_ci (txt "<script") doc = false ->
  get_key w "API_KEY" = Ok gk ->
  get_key w "DEEPSEEK_API_KEY" = Ok dk ->
  inline_assets (AssetsDir entries) doc = Ok doc /\
  load_react_app w =
    ([st_components_html
        (str_replace doc (txt "</head>") (injection_script dk gk ++ txt "</head>"))
        1000 true], Returned).
Proof.
  intros Hd Hi Ha Hread Hlink Hscript Hg Hk.
  assert (Hin : inline_assets (AssetsDir entries) doc = Ok doc).
  { unfold inline_assets. cbn [path_exists listdir mbind result_bind].
    rewrite for_each_fixed.
    - cbn [mbind result_bind]. apply for_each_fixed.
      + intros n Hn. apply filter_In in Hn as [Hn Hjs].
        apply open_asset_readable; auto.
        change (is_script n = true) in Hjs. rewrite Hjs. apply orb_true_r.
      + intros n c. now apply inline_js_no_script.
    - intros n Hn. apply filter_In in Hn as [Hn Hcss].
      apply open_asset_readable; auto.
      change (is_stylesheet n = true) in Hcss. now rewrite Hcss.
    - intros n c. now apply inline_css_no_link. }
  split; [exact Hin|].
  apply (load_react_app_renders w b (Readable doc) doc gk dk Hd Hi); auto.
  cbn [read mbind result_bind]. rewrite Ha. exact Hin.
Qed.

(** X4.  When both variables are set and not empty in the environment,
    the keys are the values of the environment and the secrets store
    has no influence: the call does the same with any other store, and
    with no secrets file at all. *)
Theorem environment_overrides_secrets (w : world) (other : secrets_store) :
  (forall name : string, In name ["API_KEY"; "DEEPSEEK_API_KEY"]%string ->
     exists c v, environ w !! name = Some (c :: v)) ->
  get_key w "API_KEY" = Ok (default [] (environ w !! "API_KEY"%string)) /\
  get_key w "DEEPSEEK_API_KEY" =
    Ok (default [] (environ w !! "DEEPSEEK_API_KEY"%string)) /\
  load_react_app {| dist := dist w; environ := environ w; secrets := other |}
  = load_react_app w.
Proof.
  intros Henv.
  destruct (Henv "API_KEY"%string) as (c1 & v1 & H1); [simpl; auto|].
  destruct (Henv "DEEPSEEK_API_KEY"%string) as (c2 & v2 & H2); [simpl; auto|].
  split; [unfold get_key; now rewrite H1|].
  split; [unfold get_key; now rewrite H2|].
  apply load_react_app_same_keys; [reflexivity| |];
    unfold get_key; cbn [environ]; [now rewrite H1|now rewrite H2].
Qed.

(** ** A page with a stylesheet and a script *)

(** With the two files as the only entries, in either order, inlining
    is the substitution for the stylesheet followed by the one for the
    script. *)
Lemma two_assets_inlining (css js html_content : text) (entries : list (text * file)) :
  entries = [(txt "app.css", Readable css); (txt "app.js", Readable js)] \/
  entries = [(txt "app.js", Readable js); (txt "app.css", Readable css)] ->
  inline_assets (AssetsDir entries) html_content =
  inline_css (txt "app.css") css html_content ≫= inline_js (txt "app.js") js.
Proof.
  intros [-> | ->]; unfold inline_assets;
    cbn [path_exists listdir map fst mbind result_bind].
  - change (List.filter (fun f => endswith f (txt ".css")) [txt "app.css"; txt "app.js"])
      with [txt "app.css"].
    change (List.filter (fun f => endswith f (txt ".js")) [txt "app.css"; txt "app.js"])
      with [txt "app.js"].
    cbn [for_each].
    change (open_asset _ (txt "app.css")) with (Ok css).
    change (open_asset _ (txt "app.js")) with (Ok js).
    cbn [mbind result_bind].
    destruct (inline_css (txt "app.css") css html_content) as [h|e]; [|reflexivity].
    cbn [mbind result_bind].
    destruct (inline_js (txt "app.js") js h); reflexivity.
  - change (List.filter (fun f => endswith f (txt ".css")) [txt "app.js"; txt "app.css"])
      with [txt "app.css"].
    change (List.filter (fun f => endswith f (txt ".js")) [txt "app.js"; txt "app.css"])
      with [txt "app.js"].
    cbn [for_each].
    change (open_asset _ (txt "app.css")) with (Ok css).
    change (open_asset _ (txt "app.js")) with (Ok js).
    cbn [mbind result_bind].
    destruct (inline_css (txt "app.css") css html_content) as [h|e]; [|reflexivity].
    cbn [mbind result_bind].
    destruct (inline_js (txt "app.js") js h); reflexivity.
Qed.

Lemma full_page_inlined (css js : text) (entries : list (text * file)) :
  entries = [(txt "app.css", Readable css); (txt "app.js", Readable js)] \/
  entries = [(txt "app.js", Readable js); (txt "app.css", Readable css)] ->
  occurs same_ci (txt "<script") css = false ->
  inline_assets (AssetsDir entries) full_page =
  Ok (txt "<html><head>" ++ style_block css ++ module_script js ++ closing_part).
Proof.
  intros Hentries Hcss. rewrite (two_assets_inlining css js full_page entries Hentries).
  destruct (link_tag_replaced (txt "app.css") css (txt "<html><head>")
              (txt "<link") (txt " rel=" ++ quoted (txt "stylesheet") ++ txt " ")
              href_attr (txt "/assets/") (txt "app.css") []
              (app_js_script ++ closing_part) eq_refl eq_refl eq_refl)
    as (post' & Hpost & Hdoc).
  rewrite inline_css_absent in Hpost by reflexivity.
  injection Hpost as <-.
  change (txt "<html><head>" ++ tag_text (txt "<link")
            (txt " rel=" ++ quoted (txt "stylesheet") ++ txt " ")
            href_attr (txt "/assets/") (txt "app.css") []
            ++ app_js_script ++ closing_part) with full_page in Hdoc.
  rewrite Hdoc. cbn [mbind result_bind].
  destruct (script_tag_substituted (txt "app.js") js
              (txt "<html><head>" ++ style_block css)
              (txt "<script")
              (txt " type=" ++ quoted (txt "module") ++ txt " crossorigin ")
              src_attr (txt "/assets/") (txt "app.js") [] [] (txt "</script>")
              closing_part eq_refl)
    as (post' & Hpost' & Hdoc'); try reflexivity.
  - unfold style_block.
    rewrite !occurs_through by reflexivity.
    rewrite <- (app_nil_r (txt "</style>")).
    rewrite occurs_cut by reflexivity. rewrite Hcss. reflexivity.
  - rewrite inline_js_no_script in Hpost' by reflexivity.
    injection Hpost' as <-.
    rewrite <- !app_assoc in Hdoc'. exact Hdoc'.
Qed.
(** X5.  For the page with one stylesheet link and one module script,
    and a directory that holds [app.css] and [app.js] in either order,
    when both keys are obtained the rendered text is the page with the
    style block in place of the link, the module script block in place
    of the script tag and the key script in front of [</head>], provided
    the stylesheet text has no [<script] in any letter case the engine
    folds and neither text has [</head>]. *)
Theorem full_page_assembled
    (w : world) (css js : text) (entries : list (text * file)) (gk dk : text) :
  dist w = Some {| index_html := Some (Readable full_page);
                   assets := AssetsDir entries |} ->
  entries = [(txt "app.css", Readable css); (txt "app.js", Readable js)] \/
  entries = [(txt "app.js", Readable js); (txt "app.css", Readable css)] ->
  get_key w "API_KEY" = Ok gk ->
  get_key w "DEEPSEEK_API_KEY" = Ok dk ->
  occurs same_ci (txt "<script") css = false ->
  occurs same (txt "</head>") css = false ->
  occurs same (txt "</head>") js = false ->
  load_react_app w =
    ([st_components_html
        (txt "<html><head>"
           ++ (txt "<style>" ++ css ++ txt "</style>")
           ++ (txt "<script type=" ++ [dquote] ++ txt "module" ++ [dquote] ++ txt ">"
                 ++ js ++ txt "</script>")
           ++ injection_script dk gk
           ++ txt "</head><body></body></html>")
        1000 true], Returned).
Proof.
  intros Hd Hentries Hg Hk Hscript Hcss Hjs.
  rewrite (load_react_app_renders w _ (Readable full_page) _ gk dk Hd eq_refl
             (full_page_inlined css js entries Hentries Hscript) Hg Hk).
  do 3 f_equal.
  change closing_part with (head_close ++ txt "<body></body></html>").
  change (txt "</head>") with head_close in *.
  rewrite (app_assoc (style_block css)), (app_assoc (txt "<html><head>")).
  rewrite with_script_app.
  rewrite (with_script_absent dk gk (txt "<body></body></html>")) by reflexivity.
  rewrite with_script_absent.
  - unfold style_block, module_script, head_close. now rewrite <- !app_assoc.
  - unfold style_block, module_script. rewrite <- !app_assoc.
    rewrite !occurs_through by reflexivity.
    rewrite occurs_cut by reflexivity. rewrite Hcss. cbn [orb].
    rewrite !occurs_through by reflexivity.
    rewrite <- (app_nil_r (txt "</script>")).
    rewrite occurs_cut by reflexivity. rewrite Hjs. reflexivity.
Qed.

(** ** Every tag, and tags of other files *)

(** X6.  The substitution for a stylesheet replaces every link tag
    that references it, not only the first: in a document made of
    stretches of text without [<link], each followed by such a tag, all
    tags become the style block and the stretches stay as they are. *)
Theorem every_link_tag_replaced
    (css_file css_content : text) (parts : list (text * text)) (last : text) :
  endswith css_file (txt ".css") = true ->
  (forall gap tag, In (gap, tag) parts ->
     occurs same_ci (txt "<link") gap = false /\ link_tag_for css_file tag) ->
  occurs same_ci (txt "<link") last = false ->
  inline_css css_file css_content (with_tags parts last) =
  Ok (with_blocks (txt "<style>" ++ css_content ++ txt "</style>") parts last).
Proof.
  intros Hend Hparts Hlast. unfold with_tags, with_blocks.
  change (txt "<style>" ++ css_content ++ txt "</style>")
    with (style_block css_content).
  induction parts as [|[gap tag] parts IH]; cbn [map concat fst snd app].
  - now apply inline_css_no_link.
  - destruct (Hparts gap tag) as [Hgap (o & b & a & p & n & r & -> & Hok)];
      [left; reflexivity|].
    rewrite <- !app_assoc.
    destruct (link_tag_replaced css_file css_content gap o b a p n r
                (concat (map (fun p => fst p ++ snd p) parts) ++ last)
                Hend Hgap Hok) as (post' & Hpost & ->).
    rewrite IH in Hpost.
    + injection Hpost as <-. reflexivity.
    + intros g t Hin. apply Hparts. now right.
Qed.

(** X7.  A directory in which no name ends in [.css] or [.js] leaves
    the document as it is, whatever it lists and whether or not its
    files can be read: no file is opened.  The suffix is compared as it
    is written, so [APP.CSS] is no stylesheet. *)
Theorem no_stylesheets_no_scripts (entries : list (text * file)) (html_content : text) :
  (forall e, In e entries ->
     is_stylesheet (fst e) = false /\ is_script (fst e) = false) ->
  inline_assets (AssetsDir entries) html_content = Ok html_content.
Proof.
  intros H. unfold inline_assets. cbn [path_exists listdir mbind result_bind].
  rewrite (filter_none (fun f => endswith f (txt ".css")) (map fst entries)).
  - cbn [for_each mbind result_bind].
    rewrite (filter_none (fun f => endswith f (txt ".js")) (map fst entries));
      [reflexivity|].
    intros n Hn. apply in_map_iff in Hn as (e & <- & He). now apply H.
  - intros n Hn. apply in_map_iff in Hn as (e & <- & He). now apply H.
Qed.
(** X8.  The pattern asks for the file name only at the end of the
    quoted value, so the substitution for a stylesheet also replaces a
    link tag that references a file whose name ends with the name of
    the stylesheet, such as [myapp.css] for [app.css]. *)
Theorem longer_name_replaced_too
    (css_file css_content pre opening before attr path stem name after post : text) :
  endswith css_file (txt ".css") = true ->
  has_char dquote css_file = false ->
  occurs same_ci (txt "<link") pre = false ->
  has_char dquote stem = false ->
  tag_parts_ok (txt "<link") href_attr css_file
    opening before attr path name after = true ->
  exists post',
    inline_css css_file css_content post = Ok post' /\
    inline_css css_file css_content
      (pre ++ tag_text opening before attr path (stem ++ name) after ++ post)
    = Ok (pre ++ style_block css_content ++ post').
Proof.
  intros Hend Hq Hpre Hstem Hparts.
  assert (Hparts' : tag_parts_ok (txt "<link") href_attr css_file
                      opening before attr (path ++ stem) name after = true).
  { unfold tag_parts_ok in *. rewrite !andb_true_iff in *.
    destruct Hparts as [[[[[[[[H1 H2] H3] H4] H5] H6] H7] H8] H9].
    repeat split; auto.
    apply negb_true_iff in H5. apply negb_true_iff.
    now rewrite has_char_app, H5, Hstem. }
  replace (tag_text opening before attr path (stem ++ name) after)
    with (tag_text opening before attr (path ++ stem) name after)
    by (unfold tag_text; now rewrite <- !app_assoc).
  now apply link_tag_replaced.
Qed.

(** ** What key injection adds *)

Lemma replace_from_length (o0 : N) (old' ins s : text) (skip : nat) :
  length (replace_from (o0 :: old') (ins ++ o0 :: old') skip s)
    + Nat.min skip (length s)
  = length s + count_from (o0 :: old') skip s * length ins.
Proof.
  revert skip. induction s as [|c s IH]; intros skip.
  - simpl. lia.
  - destruct skip as [|k]; cbn [replace_from count_from].
    + destruct (startswith same (o0 :: old') (c :: s)) eqn:E.
      * apply startswith_true in E as [r E]. apply strip_length in E.
        specialize (IH (length (o0 :: old') - 1)).
        rewrite !length_app. simpl in *. lia.
      * specialize (IH 0). simpl in *. lia.
    + specialize (IH k). simpl in *. lia.
Qed.
(** X9.  Key injection removes nothing: when both keys are obtained,
    the text grows by the length of the script block once for every
    closing head tag that [str.replace] finds, and by nothing else. *)
Theorem inject_keys_length (w : world) (html_content gk dk : text) :
  get_key w "API_KEY" = Ok gk ->
  get_key w "DEEPSEEK_API_KEY" = Ok dk ->
  exists out,
    inject_keys w html_content = Ok out /\
    length out =
      length html_content
      + str_count html_content (txt "</head>") * length (injection_script dk gk).
Proof.
  intros Hg Hk. eexists. split; [apply (inject_keys_ok w gk dk _ Hg Hk)|].
  unfold with_script, str_replace, str_count.
  change head_close with (ch "<" :: txt "/head>").
  change (txt "</head>") with (ch "<" :: txt "/head>").
  pose proof (replace_from_length (ch "<") (txt "/head>")
                (injection_script dk gk) html_content 0) as H.
  rewrite Nat.min_0_l, Nat.add_0_r in H. exact H.
Qed.

(** ** Instances *)

Lemma distinct_nodup (names : list text) :
  distinct names = true -> List.NoDup names.
Proof.
  induction names as [|n names IH]; cbn [distinct]; intros H; constructor.
  - apply andb_true_iff in H as [H _]. apply negb_true_iff in H.
    intros Hin. apply existsb_text_in in Hin. congruence.
  - apply andb_true_iff in H as [_ H]. auto.
Qed.





Lemma keys_from_environment_injected_witness :
  load_react_app (abc_keys NoSecretsFile (Some bare_build)) =
    ([], Raised SecretsNotFound) /\
  load_react_app (abc_keys empty_store (Some bare_build)) =
    ([st_components_html
        (txt "<html><head>" ++ (abc_script ++ txt "</head>")
           ++ txt "<body></body></html>")
        1000 true], Returned).
Proof.
  split.
  - destruct (keys_from_environment_injected
                (abc_keys NoSecretsFile (Some bare_build)) bare_build
                (Readable bare_page) (txt "<html><head>") (txt "<body></body></html>")
                eq_refl eq_refl eq_refl eq_refl eq_refl) as [H _].
    apply H. reflexivity.
  - destruct (keys_from_environment_injected
                (abc_keys empty_store (Some bare_build)) bare_build
                (Readable bare_page) (txt "<html><head>") (txt "<body></body></html>")
                eq_refl eq_refl eq_refl eq_refl eq_refl) as [_ H].
    destruct (H ∅ eq_refl eq_refl) as (pre' & post' & Hpre & Hpost & Hrun).
    vm_compute in Hpre. injection Hpre as <-.
    vm_compute in Hpost. injection Hpost as <-.
    exact Hrun.
Defined.

Lemma script_before_every_head_close_witness :
  inject_keys (no_keys None) (txt "<p>no head</p>") = Ok (txt "<p>no head</p>") /\
  load_react_app
    (no_keys (Some {| index_html := Some (Readable (txt "<p>no head</p>"));
                      assets := NoAssets |})) =
    ([st_components_html (txt "<p>no head</p>") 1000 true], Returned) /\
  inject_keys (abc_keys empty_store None) (txt "<head></head><p></head>") =
    Ok (txt "<head>" ++ (abc_script ++ txt "</head>")
          ++ txt "<p>" ++ (abc_script ++ txt "</head>")).
Proof.
  split; [|split].
  - destruct (script_before_every_head_close (no_keys None) [] [] eq_refl eq_refl)
      as (_ & Habsent & _).
    apply Habsent. reflexivity.
  - destruct (script_before_every_head_close
                (no_keys (Some {| index_html := Some (Readable (txt "<p>no head</p>"));
                                  assets := NoAssets |})) [] [] eq_refl eq_refl)
      as (_ & _ & _ & Hrender).
    eapply Hrender; reflexivity.
  - destruct (script_before_every_head_close (abc_keys empty_store None)
                (txt "abc") [] eq_refl ltac:(vm_compute; reflexivity))
      as (Hevery & _).
    destruct (Hevery (txt "<head>") (txt "<p></head>"))
      as (u' & v' & Hu & Hv & Huv).
    vm_compute in Hu. injection Hu as <-.
    destruct (Hevery (txt "<p>") []) as (u2 & v2 & Hu2 & Hv2 & Huv2).
    vm_compute in Hu2. injection Hu2 as <-.
    vm_compute in Hv2. injection Hv2 as <-.
    change ((txt "<p>" ++ txt "</head>") ++ []) with (txt "<p></head>") in Huv2.
    rewrite app_nil_r in Huv2.
    change (txt "<p>" ++ txt "</head>") with (txt "<p></head>") in Huv2.
    rewrite Huv2 in Hv. injection Hv as <-.
    exact Huv.
Defined.

Lemma unmatched_reference_left_alone_witness :
  inline_css (txt "app.css") (txt "body{}") single_quoted_link
  = Ok single_quoted_link.
Proof.
  apply (proj1 (unmatched_reference_left_alone
                  (txt "app.css") (txt "body{}") single_quoted_link)).
  reflexivity.
Defined.


Lemma get_key_falls_back_to_secrets_witness :
  get_key {| dist := None;
             environ := {[ "API_KEY"%string := [] ]};
             secrets := SecretsFile {[ "API_KEY"%string := txt "from-secrets" ]} |}
    "API_KEY" = Ok (txt "from-secrets") /\
  get_key (no_keys None) "API_KEY" = Ok [] /\
  get_key (no_secrets None) "API_KEY" = Raise SecretsNotFound /\
  load_react_app (no_secrets (Some bare_build)) = ([], Raised SecretsNotFound).
Proof.
  split; [|split; [|split]].
  - assert (Henv : environ {| dist := None;
                              environ := {[ "API_KEY"%string := [] ]};
                              secrets := SecretsFile
                                           {[ "API_KEY"%string := txt "from-secrets" ]} |}
                     !! "API_KEY"%string = None \/
                   environ {| dist := None;
                              environ := {[ "API_KEY"%string := [] ]};
                              secrets := SecretsFile
                                           {[ "API_KEY"%string := txt "from-secrets" ]} |}
                     !! "API_KEY"%string = Some [])
      by (right; reflexivity).
    destruct (get_key_falls_back_to_secrets _ _ Henv) as (H & _).
    eapply H; reflexivity.
  - assert (Henv : environ (no_keys None) !! "API_KEY"%string = None \/
                   environ (no_keys None) !! "API_KEY"%string = Some [])
      by (left; reflexivity).
    destruct (get_key_falls_back_to_secrets _ _ Henv) as (_ & H & _).
    eapply H; reflexivity.
  - assert (Henv : environ (no_secrets None) !! "API_KEY"%string = None \/
                   environ (no_secrets None) !! "API_KEY"%string = Some [])
      by (left; reflexivity).
    destruct (get_key_falls_back_to_secrets _ _ Henv) as (_ & _ & _ & H).
    destruct (H eq_refl) as [Hraise _]. exact Hraise.
  - assert (Henv : environ (no_secrets (Some bare_build)) !! "API_KEY"%string = None \/
                   environ (no_secrets (Some bare_build)) !! "API_KEY"%string = Some [])
      by (left; reflexivity).
    destruct (get_key_falls_back_to_secrets _ _ Henv) as (_ & _ & _ & H).
    destruct (H eq_refl) as [_ Hcall].
    apply (Hcall (or_introl eq_refl) bare_build (Readable bare_page) bare_page);
      reflexivity.
Defined.

Lemma missing_assets_dir_skips_inlining_witness :
  load_react_app (abc_keys empty_store (Some bare_build)) =
    ([st_components_html
        (txt "<html><head>" ++ abc_script ++ txt "</head><body></body></html>")
        1000 true], Returned) /\
  load_react_app (no_secrets (Some bare_build)) = ([], Raised SecretsNotFound).
Proof.
  split.
  - destruct (missing_assets_dir_skips_inlining
                (abc_keys empty_store (Some bare_build)) bare_build bare_page
                eq_refl eq_refl eq_refl) as (_ & H & _).
    apply (H (txt "abc") []); reflexivity.
  - destruct (missing_assets_dir_skips_inlining
                (no_secrets (Some bare_build)) bare_build bare_page
                eq_refl eq_refl eq_refl) as (_ & _ & H).
    apply H; reflexivity.
Defined.

Lemma load_react_app_deterministic_witness :
  load_react_app (abc_keys empty_store (Some bare_build)) =
  load_react_app
    {| dist := Some bare_build;
       environ := <[ "HOME"%string := txt "/root" ]> abc_environ;
       secrets := SecretsFile {[ "OTHER"%string := txt "x" ]} |}.
Proof.
  apply load_react_app_deterministic; [reflexivity|].
  intros name [<-|[<-|[]]]; split; reflexivity.
Defined.

Lemma load_react_app_first_error_witness :
  load_react_app
    (no_keys (Some {| index_html := Some (Readable bare_page);
                      assets := AssetsDir mixed_entries |}))
  = ([], Raised UnicodeDecodeError).
Proof.
  assert (Hnd : List.NoDup (map fst mixed_entries))
    by (apply distinct_nodup; vm_compute; reflexivity).
  exact (load_react_app_first_error
           (no_keys (Some {| index_html := Some (Readable bare_page);
                             assets := AssetsDir mixed_entries |}))
           _ (Readable bare_page) mixed_entries eq_refl eq_refl eq_refl Hnd).
Defined.

Lemma untagged_page_only_gets_keys_witness :
  load_react_app
    (abc_keys empty_store
       (Some {| index_html := Some (Readable bare_page);
                assets := AssetsDir [(txt "app.css", Readable (txt "body{}"));
                                     (txt "notes.txt", Unreadable OSError)] |}))
  = ([st_components_html
        (txt "<html><head>" ++ abc_script ++ txt "</head><body></body></html>")
        1000 true], Returned).
Proof.
  destruct (untagged_page_only_gets_keys
              (abc_keys empty_store
                 (Some {| index_html := Some (Readable bare_page);
                          assets := AssetsDir [(txt "app.css", Readable (txt "body{}"));
                                               (txt "notes.txt", Unreadable OSError)] |}))
              _ bare_page _ (txt "abc") []
              eq_refl eq_refl eq_refl eq_refl eq_refl eq_refl eq_refl eq_refl)
    as [_ H].
  exact H.
Defined.

Lemma environment_overrides_secrets_witness :
  load_react_app {| dist := Some bare_build; environ := both_keys;
                    secrets := NoSecretsFile |}
  = load_react_app {| dist := Some bare_build; environ := both_keys;
                      secrets := empty_store |}.
Proof.
  apply (environment_overrides_secrets
           {| dist := Some bare_build; environ := both_keys;
              secrets := empty_store |}
           NoSecretsFile).
  intros name [<-|[<-|[]]].
  - exists (ch "a"), (txt "bc"). reflexivity.
  - exists (ch "x"), (txt "yz"). reflexivity.
Defined.

Lemma full_page_assembled_witness :
  load_react_app
    (abc_keys empty_store
       (Some {| index_html := Some (Readable full_page);
                assets := AssetsDir [(txt "app.js", Readable (txt "main()"));
                                     (txt "app.css", Readable (txt "body{}"))] |}))
  = ([st_components_html
        (txt "<html><head><style>body{}</style><script type="
           ++ quoted (txt "module") ++ txt ">main()</script>"
           ++ abc_script ++ txt "</head><body></body></html>")
        1000 true], Returned).
Proof.
  apply (full_page_assembled
           (abc_keys empty_store
              (Some {| index_html := Some (Readable full_page);
                       assets := AssetsDir [(txt "app.js", Readable (txt "main()"));
                                            (txt "app.css", Readable (txt "body{}"))] |}))
           (txt "body{}") (txt "main()") _ (txt "abc") [] eq_refl (or_intror eq_refl));
    reflexivity.
Defined.

Lemma every_link_tag_replaced_witness :
  inline_css (txt "app.css") (txt "body{}")
    (with_tags [(txt "<html><head>", app_css_link); (txt " ", capital_link)]
       closing_part)
  = Ok (txt "<html><head><style>body{}</style> <style>body{}</style>"
          ++ closing_part).
Proof.
  apply (every_link_tag_replaced (txt "app.css") (txt "body{}")
           [(txt "<html><head>", app_css_link); (txt " ", capital_link)]
           closing_part); try reflexivity.
  intros gap tag [H|[H|[]]]; injection H as <- <-; (split; [reflexivity|]).
  - exists (txt "<link"),
      (txt " rel=" ++ quoted (txt "stylesheet") ++ txt " "),
      href_attr, (txt "/assets/"), (txt "app.css"), [].
    split; reflexivity.
  - exists (txt "<LINK"),
      (txt " REL=" ++ quoted (txt "stylesheet") ++ txt " "),
      (txt "HREF=" ++ [dquote]), (txt "/assets/"), (txt "App.CSS"),
      (txt " crossorigin").
    split; reflexivity.
Defined.

Lemma no_stylesheets_no_scripts_witness :
  inline_assets (AssetsDir other_entries) app_css_link = Ok app_css_link.
Proof.
  apply no_stylesheets_no_scripts.
  intros e [<-|[<-|[]]]; split; reflexivity.
Defined.

Lemma longer_name_replaced_too_witness :
  exists post',
    inline_css (txt "app.css") (txt "body{}") closing_part = Ok post' /\
    inline_css (txt "app.css") (txt "body{}")
      (txt "<html><head>" ++ longer_link ++ closing_part)
    = Ok (txt "<html><head>" ++ style_block (txt "body{}") ++ post').
Proof.
  apply (longer_name_replaced_too (txt "app.css") (txt "body{}") (txt "<html><head>")
           (txt "<link") (txt " ") href_attr (txt "/assets/") (txt "my")
           (txt "app.css") [] closing_part);
    reflexivity.
Defined.

Lemma inject_keys_length_witness :
  exists out,
    inject_keys (abc_keys empty_store None) (txt "<head></head><p></head>")
      = Ok out /\
    length out = 23 + 2 * length abc_script.
Proof.
  apply (inject_keys_length (abc_keys empty_store None)
           (txt "<head></head><p></head>") (txt "abc") []);
    reflexivity.
Defined.
